(** * Foxy: secret store, schema-validated cache, config loader and
      commit-message generator

    A shallow embedding of the TypeScript sources of the Foxy command-line
    assistant, and the properties of its specification proved (or refuted)
    against it.

    Conventions of the embedding.
    - A JavaScript string is the list of its UTF-16 code units ([jsstring]);
      [lit] turns a literal of this file into that list, so that literals
      read as they do in the sources.
    - A thrown [Error] is the record of its message; a computation that may
      throw returns a [result]; a method that touches the disk, the console
      or the terminal is a function of the [world].
    - Code of Node.js and of third-party packages (SHA-256, AES-256-CBC,
      [JSON.parse], [JSON.stringify], [path.resolve], [path.dirname], the
      remote model) is not part of the repository: it enters as the
      variables of a section.
    - The sources are ES modules, and the registry of the cache is an
      ordinary object: a call of [require] throws, and a property lookup
      on the registry also finds the members of [Object.prototype]. *)

From Stdlib Require Import ZArith NArith List String Ascii Bool Lia.
From Stdlib Require Import Decimal DecimalNat.
From stdpp Require Import base option list gmap.

Set Warnings "-register-all".
Set Default Proof Using "Type".

(* ===================================================================== *)
(** * JavaScript strings *)
(* ===================================================================== *)

Module Js.

(** A string value: its UTF-16 code units. *)
Abbreviation jsstring := (list N).

(** Decoding of the UTF-8 bytes of a literal into UTF-16 code units;
    code points above the basic plane become a surrogate pair. *)
Fixpoint utf16_of_utf8 (bs : list N) : jsstring :=
  match bs with
  | [] => []
  | b :: r1 =>
    if (b <? 0x80)%N then b :: utf16_of_utf8 r1
    else match r1 with
      | [] => []
      | c1 :: r2 =>
        if (b <? 0xE0)%N
        then ((b mod 32) * 64 + c1 mod 64)%N :: utf16_of_utf8 r2
        else match r2 with
          | [] => []
          | c2 :: r3 =>
            if (b <? 0xF0)%N
            then ((b mod 16) * 4096 + (c1 mod 64) * 64 + c2 mod 64)%N
                   :: utf16_of_utf8 r3
            else match r3 with
              | [] => []
              | c3 :: r4 =>
                let cp := ((b mod 8) * 262144 + (c1 mod 64) * 4096
                           + (c2 mod 64) * 64 + c3 mod 64)%N in
                let v := (cp - 0x10000)%N in
                (0xD800 + v / 1024)%N :: (0xDC00 + v mod 1024)%N
                  :: utf16_of_utf8 r4
              end
          end
      end
  end.

Definition lit (s : string) : jsstring :=
  utf16_of_utf8 (map N_of_ascii (list_ascii_of_string s)).
Arguments lit : simpl never.

(** Single code units used by the sources. *)
Definition LF : N := 10.
Definition SPACE : N := 32.
Definition DQUOTE : N := 34.
Definition SQUOTE : N := 39.
Definition COLON : N := 58.

(** [s.length] *)
Definition jslength (s : jsstring) : Z := Z.of_nat (length s).

(** [s.substring(indexStart, indexEnd)]: both indices are clamped to
    [0 .. s.length] and swapped when the first is the larger; an omitted
    [indexEnd] is [s.length]. *)
Definition clamp (len : nat) (i : Z) : nat :=
  Z.to_nat (Z.min (Z.max i 0) (Z.of_nat len)).

Definition substring (s : jsstring) (indexStart : Z) (indexEnd : option Z)
  : jsstring :=
  let len := length s in
  let a := clamp len indexStart in
  let b := match indexEnd with Some e => clamp len e | None => len end in
  let from := Nat.min a b in
  let to := Nat.max a b in
  take (to - from) (drop from s).

(** WhiteSpace and LineTerminator code units of ECMAScript, the ones
    [trim] removes. *)
Definition is_white_space (c : N) : bool :=
  ((9 <=? c) && (c <=? 13) || (c =? 0x20) || (c =? 0xA0) || (c =? 0x1680)
   || (0x2000 <=? c) && (c <=? 0x200A) || (c =? 0x2028) || (c =? 0x2029)
   || (c =? 0x202F) || (c =? 0x205F) || (c =? 0x3000) || (c =? 0xFEFF))%N.

Fixpoint trimStart (s : jsstring) : jsstring :=
  match s with
  | [] => []
  | c :: r => if is_white_space c then trimStart r else s
  end.

Definition trimEnd (s : jsstring) : jsstring := rev (trimStart (rev s)).

(** [s.trim()] *)
Definition trim (s : jsstring) : jsstring := trimEnd (trimStart s).

(** [s.split(sep)] for a separator of one code unit, as every call of the
    sources has it; the result is never empty. *)
Fixpoint split (sep : N) (s : jsstring) : list jsstring :=
  match s with
  | [] => [[]]
  | c :: r =>
    if (c =? sep)%N then [] :: split sep r
    else match split sep r with
         | p :: ps => (c :: p) :: ps
         | [] => [[c]]
         end
  end.

(** [parts.join(sep)] *)
Fixpoint join (sep : jsstring) (parts : list jsstring) : jsstring :=
  match parts with
  | [] => []
  | [p] => p
  | p :: ps => p ++ sep ++ join sep ps
  end.

(** [s.startsWith(prefix)] *)
Fixpoint startsWith (s prefix : jsstring) {struct prefix} : bool :=
  match prefix, s with
  | [], _ => true
  | _ :: _, [] => false
  | p :: ps, c :: r => (c =? p)%N && startsWith r ps
  end.

(** [s.includes(needle)] *)
Fixpoint includes (s needle : jsstring) : bool :=
  startsWith s needle
  || match s with [] => false | _ :: r => includes r needle end.

(** [s.toLowerCase()] on the letters A-Z; the sources only compare the
    outcome with the literals ['y'] and ['yes']. *)
Definition toLowerCase (s : jsstring) : jsstring :=
  map (fun c => if ((65 <=? c) && (c <=? 90))%N then (c + 32)%N else c) s.

(** [s.replace] with the global pattern of the two quote characters and
    the empty replacement: every single and double quote is removed. *)
Definition remove_quotes (s : jsstring) : jsstring :=
  filter (fun c => c ≠ SQUOTE ∧ c ≠ DQUOTE) s.

(** [s.replace] with the global pattern of the line feed and a space as
    replacement. *)
Definition newlines_to_spaces (s : jsstring) : jsstring :=
  map (fun c => if (c =? LF)%N then SPACE else c) s.

(** Two strings compared with [===] *)
Definition streq (a b : jsstring) : bool := bool_decide (a = b).

(** [String(n)] and [`${n}`] for a number that is an integer. *)
Fixpoint digits (d : Decimal.uint) : jsstring :=
  match d with
  | Nil => []
  | D0 r => 48%N :: digits r
  | D1 r => 49%N :: digits r
  | D2 r => 50%N :: digits r
  | D3 r => 51%N :: digits r
  | D4 r => 52%N :: digits r
  | D5 r => 53%N :: digits r
  | D6 r => 54%N :: digits r
  | D7 r => 55%N :: digits r
  | D8 r => 56%N :: digits r
  | D9 r => 57%N :: digits r
  end.

Definition String_of_nat (n : nat) : jsstring := digits (Nat.to_uint n).

Definition String_of_Z (z : Z) : jsstring :=
  if (z <? 0)%Z then 45%N :: String_of_nat (Z.to_nat (- z))
  else String_of_nat (Z.to_nat z).

(** [x || d] for a string that may be [undefined]: the empty string is
    falsy too. *)
Definition or_else (x : option jsstring) (d : jsstring) : jsstring :=
  match x with
  | Some [] | None => d
  | Some s => s
  end.

(** [!x] for a string that may be [undefined]. *)
Definition falsy (x : option jsstring) : bool :=
  match x with
  | Some (_ :: _) => false
  | _ => true
  end.

(** ** Hexadecimal encoding of buffers *)

Definition hex_digit (n : N) : N :=
  if (n <? 10)%N then (48 + n)%N else (87 + n)%N.

Definition hex_of_byte (b : Byte.byte) : jsstring :=
  let n := Byte.to_N b in [hex_digit (n / 16); hex_digit (n mod 16)].

(** [buf.toString('hex')] *)
Definition toString_hex (buf : list Byte.byte) : jsstring :=
  flat_map hex_of_byte buf.

Definition hex_value (c : N) : option N :=
  if ((48 <=? c) && (c <=? 57))%N then Some (c - 48)%N
  else if ((97 <=? c) && (c <=? 102))%N then Some (c - 87)%N
  else if ((65 <=? c) && (c <=? 70))%N then Some (c - 55)%N
  else None.

(** [Buffer.from(s, 'hex')]: decoding stops at the first pair that is not
    two hexadecimal digits. *)
Fixpoint Buffer_from_hex (s : jsstring) : list Byte.byte :=
  match s with
  | h :: l :: r =>
    match hex_value h, hex_value l with
    | Some a, Some b =>
      match Byte.of_N (16 * a + b) with
      | Some x => x :: Buffer_from_hex r
      | None => []
      end
    | _, _ => []
    end
  | _ => []
  end.

End Js.
Export Js.

(* ===================================================================== *)
(** * Errors, the world, and computations that touch it *)
(* ===================================================================== *)

(** [new Error(message)]; the sources only ever read [error.message]. *)
Record error := Error { message : jsstring }.

Inductive result (A : Type) :=
| Ok (a : A)
| Throw (e : error).
Arguments Ok {A} a.
Arguments Throw {A} e.

Definition bind_result {A B} (r : result A) (k : A → result B) : result B :=
  match r with
  | Ok a => k a
  | Throw e => Throw e
  end.

(** [try { body } catch (error) { handler }] around code without effects *)
Definition try_result {A} (body : result A) (handler : error → result A)
  : result A :=
  match body with
  | Ok a => Ok a
  | Throw e => handler e
  end.

Declare Scope result_scope.
Delimit Scope result_scope with res.
Notation "x <- m ;; k" := (bind_result m (fun x => k))
  (at level 62, m at next level, right associativity) : result_scope.

(** What a path of the file system holds.  Paths are opaque names: the
    directories above a file are taken to be in place. *)
Inductive node :=
| File (content : jsstring)
| Directory.

Inductive log_entry :=
| console_log (text : jsstring)
| console_warn (text : jsstring)
| console_error (text : jsstring)
| rl_question (query : jsstring).

(** [lib/gemini-agent/GGClient.ts]: the handle on the remote model. *)
Record GGClient := {
  GOOGLE_API_KEY : jsstring;
  modelName : jsstring
}.

(** The part of the machine the program reads and writes: the disk, what
    was printed, how many bytes of the random source were drawn, how many
    questions the operator has answered, and the two mutable fields of the
    one [FoxyClient] the program creates. *)
Record world := World {
  fs : gmap jsstring node;
  console : list log_entry;
  drawn : nat;
  answered : nat;
  GGProfile : option GGClient;
  isInitialized : bool
}.

Definition with_fs (w : world) (disk : gmap jsstring node) : world :=
  World disk (console w) (drawn w) (answered w) (GGProfile w)
        (isInitialized w).

Definition with_console (w : world) (out : list log_entry) : world :=
  World (fs w) out (drawn w) (answered w) (GGProfile w) (isInitialized w).

Definition with_drawn (w : world) (n : nat) : world :=
  World (fs w) (console w) n (answered w) (GGProfile w) (isInitialized w).

Definition with_answered (w : world) (n : nat) : world :=
  World (fs w) (console w) (drawn w) n (GGProfile w) (isInitialized w).

Definition with_client (w : world) (profile : option GGClient) (init : bool)
  : world :=
  World (fs w) (console w) (drawn w) (answered w) profile init.

Definition M (A : Type) : Type := world → result A * world.

Definition ret {A} (a : A) : M A := fun w => (Ok a, w).
Definition throw {A} (e : error) : M A := fun w => (Throw e, w).
Definition lift {A} (r : result A) : M A := fun w => (r, w).

Definition bind {A B} (m : M A) (k : A → M B) : M B :=
  fun w =>
    match m w with
    | (Ok a, w') => k a w'
    | (Throw e, w') => (Throw e, w')
    end.

(** [try { body } catch (error) { handler }]: what the body did to the
    world before it threw stays done. *)
Definition try_catch {A} (body : M A) (handler : error → M A) : M A :=
  fun w =>
    match body w with
    | (Ok a, w') => (Ok a, w')
    | (Throw e, w') => handler e w'
    end.

Declare Scope io_scope.
Delimit Scope io_scope with io.
Notation "x <- m ;; k" := (bind m (fun x => k))
  (at level 62, m at next level, right associativity) : io_scope.
Notation "m ;;; k" := (bind m (fun _ => k))
  (at level 62, right associativity) : io_scope.

Definition read {A} (f : world → A) : M A := fun w => (Ok (f w), w).

Definition print (entry : log_entry) : M unit :=
  fun w => (Ok tt, with_console w (console w ++ [entry])).

(** ** [node:fs] *)

Definition existsSync (path : jsstring) (w : world) : bool :=
  bool_decide (is_Some (fs w !! path)).

Definition EISDIR : error :=
  Error (lit "EISDIR: illegal operation on a directory").
Definition ENOENT : error :=
  Error (lit "ENOENT: no such file or directory").

Definition read_file (disk : gmap jsstring node) (path : jsstring)
  : result jsstring :=
  match disk !! path with
  | Some (File content) => Ok content
  | Some Directory => Throw EISDIR
  | None => Throw ENOENT
  end.

Definition readFileSync (path : jsstring) : M jsstring :=
  fun w => (read_file (fs w) path, w).

Definition writeFileSync (path : jsstring) (data : jsstring) : M unit :=
  fun w =>
    match fs w !! path with
    | Some Directory => (Throw EISDIR, w)
    | _ => (Ok tt, with_fs w (<[path := File data]> (fs w)))
    end.

Definition unlinkSync (path : jsstring) : M unit :=
  fun w =>
    match fs w !! path with
    | Some (File _) => (Ok tt, with_fs w (delete path (fs w)))
    | Some Directory => (Throw EISDIR, w)
    | None => (Throw ENOENT, w)
    end.

Definition mkdirSync (path : jsstring) : M unit :=
  fun w =>
    match fs w !! path with
    | Some (File _) => (Throw (Error (lit "EEXIST: file already exists")), w)
    | _ => (Ok tt, with_fs w (<[path := Directory]> (fs w)))
    end.

(** ** [node:os], [process.env] and [child_process] *)

Record host := Host {
  platform : jsstring;
  process_env : gmap jsstring jsstring;
  homedir : jsstring;
  (** outcome of running the [system_profiler | grep] pipeline *)
  system_profiler : result jsstring
}.

(** [join(dir, name)] of [node:path], for a [dir] that needs no
    normalisation. *)
Definition path_join (dir name : jsstring) : jsstring :=
  dir ++ lit "/" ++ name.

(* ===================================================================== *)
(** * JSON values and JavaScript objects *)
(* ===================================================================== *)

(** What [JSON.parse] returns; a number is an integer here. *)
Inductive json :=
| JNull
| JBool (b : bool)
| JNum (n : Z)
| JStr (s : jsstring)
| JArr (items : list json)
| JObj (props : gmap jsstring json).

(** An object literal. *)
Definition obj (fields : list (string * json)) : json :=
  JObj (list_to_map (map (fun kv => (lit (fst kv), snd kv)) fields)).

(** The own enumerable properties of a value, which the spread [{...v}]
    copies: the entries of an object, the indices of an array or of a
    string, nothing for [null], a number or a boolean. *)
Definition own_props (v : json) : gmap jsstring json :=
  match v with
  | JObj props => props
  | JArr items => list_to_map (imap (fun i x => (String_of_nat i, x)) items)
  | JStr s => list_to_map (imap (fun i c => (String_of_nat i, JStr [c])) s)
  | _ => ∅
  end.

(** [{ ...a, ...b }] *)
Definition spread2 (a b : json) : gmap jsstring json :=
  own_props b ∪ own_props a.

(** [v.name] for a name that is neither an index nor a member of a
    prototype: [undefined] is [None]; reading a property of [null]
    throws. *)
Definition get_prop (v : json) (name : string) : result (option json) :=
  match v with
  | JNull =>
    Throw (Error (lit "Cannot read properties of null (reading '"
                  ++ lit name ++ lit "')"))
  | JObj props => Ok (props !! lit name)
  | _ => Ok None
  end.

(** Truthiness of a value that may be [undefined]. *)
Definition truthy (v : option json) : bool :=
  match v with
  | None | Some JNull => false
  | Some (JBool b) => b
  | Some (JNum n) => negb (n =? 0)%Z
  | Some (JStr s) => negb (bool_decide (s = []))
  | Some (JArr _) | Some (JObj _) => true
  end.

(** [v === 'literal'] for a value that may be [undefined]. *)
Definition strictly_equals (v : option json) (literal : jsstring) : bool :=
  match v with
  | Some (JStr s) => streq s literal
  | _ => false
  end.

(** The names an ordinary object answers to without having them as own
    properties: the members of [Object.prototype].  What such a name gives
    is a function, or for [__proto__] the prototype itself: a truthy value
    that has no [_def] and no [safeParse]. *)
Definition Object_prototype : list jsstring :=
  map lit ["constructor"; "__defineGetter__"; "__defineSetter__";
           "hasOwnProperty"; "__lookupGetter__"; "__lookupSetter__";
           "isPrototypeOf"; "propertyIsEnumerable"; "toString"; "valueOf";
           "__proto__"; "toLocaleString"]%string.

Definition inherited (name : jsstring) : bool :=
  bool_decide (name ∈ Object_prototype).

(** The [TypeError] of a call of something that is no function. *)
Definition not_a_function (callee : string) : error :=
  Error (lit callee ++ lit " is not a function").

(** A [zod] schema, by the two things the sources ask of it: [safeParse],
    which gives the parsed data when the value validates, and, for a
    [ZodDefault], the outcome of [_def.defaultValue()]. *)
Record ZodType := {
  safeParse : json → option json;
  zod_default : option (result json)
}.

Section Foxy.

(** The machine the program runs on. *)
Variable h : host.

(** [createHash('sha256').update(s).digest('hex')] *)
Variable sha256_hex : jsstring → jsstring.

(** [createCipheriv('aes-256-cbc', key, iv)] followed by [update(text,
    'utf8', ...)] and [final(...)]: the bytes of the ciphertext, or the
    error of the library (a key or an IV of the wrong length). *)
Variable aes_256_cbc_encrypt :
  jsstring → list Byte.byte → jsstring → result (list Byte.byte).

(** [createDecipheriv('aes-256-cbc', key, iv)] followed by
    [update(encryptedHex, 'hex', 'utf8')] and [final('utf8')]: the text, or
    the error of the library (bad lengths, bad padding). *)
Variable aes_256_cbc_decrypt :
  jsstring → list Byte.byte → jsstring → result jsstring.

(** The bytes the operating system's random source hands out, in order. *)
Variable random_source : nat → Byte.byte.

(** The lines the operator types at the terminal, in order. *)
Variable operator : nat → jsstring.

(** What a call of [require] throws.  The sources are ES modules (they
    [import], and the build emits the format [esm]), where no [require]
    exists: the call throws, with the words of the runtime. *)
Variable require_error : error.

Local Open Scope io_scope.

Definition env (name : string) : option jsstring := process_env h !! lit name.

(** [randomBytes(size)] *)
Definition randomBytes (size : nat) : M (list Byte.byte) :=
  fun w =>
    (Ok (map random_source (seq (drawn w) size)),
     with_drawn w (drawn w + size)).

(** [require(id)] *)
Definition require (id : jsstring) : M unit := throw require_error.

(** [rl.question(query)] *)
Definition question (query : jsstring) : M jsstring :=
  fun w =>
    (Ok (operator (answered w)),
     with_answered (with_console w (console w ++ [rl_question query]))
                   (S (answered w))).

(* ===================================================================== *)
(** * util/ApiKeyManager.ts *)
(* ===================================================================== *)

Record ApiKeyManager := {
  configPath : jsstring;
  encryptionKey : jsstring
}.

(** The identifier string the key is derived from, one branch per
    platform, each with the [catch] of the source. *)
Definition systemInfo (w : world) : result jsstring :=
  let platformType := platform h in
  if streq platformType (lit "win32") then
    try_result
      (let computerName := or_else (env "COMPUTERNAME") (lit "unknown") in
       let userName := or_else (env "USERNAME") (lit "unknown") in
       Ok (computerName ++ lit "-" ++ userName ++ lit "-" ++ platformType))
      (fun _ => Ok (lit "windows-" ++ or_else (env "USERNAME") (lit "user")))
  else if streq platformType (lit "darwin") then
    try_result
      (out <- system_profiler h;;
       let serialNumber :=
         or_else (trim <$> (split COLON (trim out) !! 1%nat))
                 (lit "unknown") in
       Ok (serialNumber ++ lit "-" ++ platformType))%res
      (fun _ => Ok (lit "macos-" ++ or_else (env "USER") (lit "user")))
  else if streq platformType (lit "linux") then
    try_result
      (if existsSync (lit "/etc/machine-id") w then
         (content <- read_file (fs w) (lit "/etc/machine-id");;
          let machineId := trim content in
          Ok (machineId ++ lit "-" ++ platformType))%res
       else Ok (lit "linux-" ++ or_else (env "USER") (lit "user")))
      (fun _ => Ok (lit "linux-" ++ or_else (env "USER") (lit "user")))
  else
    Ok (platformType ++ lit "-"
        ++ or_else (env "USER") (or_else (env "USERNAME") (lit "user"))).

Definition getSystemKey (w : world) : result jsstring :=
  try_result
    (info <- systemInfo w;;
     Ok (substring (sha256_hex info) 0 (Some 32%Z)))%res
    (fun _ =>
       let fallback :=
         platform h ++ lit "-"
         ++ or_else (env "USER") (or_else (env "USERNAME") (lit "fallback")) in
       Ok (substring (sha256_hex fallback) 0 (Some 32%Z))).

(** The constructor. *)
Definition new_ApiKeyManager (w : world) : result ApiKeyManager :=
  (key <- getSystemKey w;;
   Ok {| configPath := path_join (homedir h) (lit ".foxy-config.enc");
         encryptionKey := key |})%res.

Section ApiKeyManager_methods.

Variable this : ApiKeyManager.

Definition encrypt (text : jsstring) : M jsstring :=
  try_catch
    (iv <- randomBytes 16;;
     encrypted <- lift (aes_256_cbc_encrypt (encryptionKey this) iv text);;
     ret (toString_hex iv ++ lit ":" ++ toString_hex encrypted))
    (fun _ => throw (Error (lit "Erro ao criptografar a API key"))).

Definition decrypt (encryptedText : jsstring) : result jsstring :=
  try_result
    (let parts := split COLON encryptedText in
     let ivHex := parts !! 0%nat in
     let encryptedHex := parts !! 1%nat in
     if falsy ivHex || falsy encryptedHex then
       Throw (Error (lit "Formato de texto criptografado inválido"))
     else
       let iv := Buffer_from_hex (default [] ivHex) in
       aes_256_cbc_decrypt (encryptionKey this) iv (default [] encryptedHex))
    (fun _ =>
       Throw (Error (lit
         "Erro ao descriptografar a API key - pode ter sido corrompida"))).

Definition hasApiKey (w : world) : bool := existsSync (configPath this) w.

Definition promptForApiKey : M jsstring :=
  print (console_log (LF :: lit "🦊 | Bem-vindo ao Foxy!"));;;
  print (console_log
    (lit "📝 | Para começar, preciso da sua API key do Google Gemini."));;;
  print (console_log
    (lit "💡 | Você pode obter uma em: https://makersuite.google.com/app/apikey"
     ++ [LF]));;;
  apiKey <- question (lit "🔑 | Cole sua API key do Gemini aqui: ");;
  if falsy (Some apiKey) || bool_decide (length (trim apiKey) = 0%nat) then
    throw (Error (lit "API key não pode estar vazia"))
  else
    (if negb (startsWith (trim apiKey) (lit "AIza")) then
       print (console_log
         (lit "⚠️  | A API key não parece válida (deve começar com "
          ++ [DQUOTE] ++ lit "AIza" ++ [DQUOTE] ++ lit ")"));;;
       confirm <- question (lit "❓ | Deseja continuar mesmo assim? (y/N): ");;
       if negb (streq (toLowerCase confirm) (lit "y"))
          && negb (streq (toLowerCase confirm) (lit "yes"))
       then throw (Error (lit "Configuração cancelada pelo usuário"))
       else ret tt
     else ret tt);;;
    ret (trim apiKey).

Definition saveApiKey (apiKey : jsstring) : M unit :=
  try_catch
    (encrypted <- encrypt apiKey;;
     writeFileSync (configPath this) encrypted;;;
     print (console_log (lit "✅ | API key salva com segurança!")))
    (fun error =>
       throw (Error (lit "Erro ao salvar API key: " ++ message error))).

Definition loadApiKey : M jsstring :=
  fun w =>
    if negb (hasApiKey w) then
      throw (Error (lit "API key não encontrada. Execute o setup primeiro.")) w
    else
      try_catch
        (encrypted <- readFileSync (configPath this);;
         lift (decrypt encrypted))
        (fun error =>
           throw (Error (lit "Erro ao carregar API key: " ++ message error)))
        w.

Definition setupApiKey : M jsstring :=
  apiKey <- promptForApiKey;;
  saveApiKey apiKey;;;
  ret apiKey.

Definition deleteApiKey : M unit :=
  fun w =>
    if existsSync (configPath this) w then
      try_catch
        (require (lit "fs");;;
         unlinkSync (configPath this);;;
         print (console_log (lit "🗑️  | API key removida com sucesso!")))
        (fun error =>
           print (console_error
             (lit "❌ | Erro ao remover API key: " ++ message error)))
        w
    else (Ok tt, w).

End ApiKeyManager_methods.

(* ===================================================================== *)
(** * util/managers/CacheController.ts *)
(* ===================================================================== *)

(** [JSON.parse(text)]: the value, or the [SyntaxError]. *)
Variable JSON_parse : jsstring → result json.

(** [JSON.stringify(value, null, 2)] *)
Variable JSON_stringify : json → jsstring.

(** [resolve(from, to)] of [node:path]: the absolute, normalised path that
    [to] names when taken from [from], itself taken from the working
    directory. *)
Variable path_resolve : jsstring → jsstring → jsstring.

(** [schemas] holds the own properties of the registry, an ordinary
    object. *)
Record CacheController := {
  cacheDir : jsstring;
  schemas : gmap jsstring ZodType
}.

(** The constructor, with [ensureCacheDirExists]. *)
Definition new_CacheController (registry : gmap jsstring ZodType)
    (dir : option jsstring) : M CacheController :=
  let this := {| cacheDir := path_resolve (default (lit "./.cache") dir)
                                          (lit "foxy_cache");
                 schemas := registry |} in
  exist <- read (existsSync (cacheDir this));;
  (if negb exist then
     try_catch (mkdirSync (cacheDir this))
       (fun error =>
          throw (Error (lit "Failed to create cache directory: "
                        ++ message error)))
   else ret tt);;;
  ret this.

Section CacheController_methods.

Variable this : CacheController.

(** [resolve(this.cacheDir, `${filename}.json.cache`)] *)
Definition cache_file (filename : jsstring) : jsstring :=
  path_resolve (cacheDir this) (filename ++ lit ".json.cache").

(** In the three methods that read [this.schemas[filename]], a name that
    is no own property of the registry but a member of [Object.prototype]
    gets past the guard [!schema]; the first [schema.safeParse(...)] that
    is reached then throws. *)
Definition saveCache (filename : jsstring) (data : json) : M unit :=
  match schemas this !! filename with
  | None =>
    if inherited filename then throw (not_a_function "schema.safeParse")
    else throw (Error (lit "Schema not found for key: " ++ filename))
  | Some schema =>
    (if safeParse schema data is None then
       print (console_warn
         (lit "WARNING: Data being saved for '" ++ filename
          ++ lit "' does not validate against the schema. Errors:"))
     else ret tt);;;
    let filePath := cache_file filename in
    try_catch (writeFileSync filePath (JSON_stringify data))
      (fun error =>
         throw (Error (lit "Failed to save cache '" ++ filename ++ lit "': "
                       ++ message error)))
  end.

(** The default a load falls back on: the one the caller passes, else the
    one a [ZodDefault] schema yields (a throwing supplier is ignored). *)
Definition effective_default (schema : ZodType) (defaultValue : option json)
  : option json :=
  match defaultValue with
  | Some d => Some d
  | None =>
    match zod_default schema with
    | Some (Ok d) => Some d
    | _ => None
    end
  end.

Definition loadCache (filename : jsstring) (defaultValue : option json)
  : M json :=
  match schemas this !! filename with
  | None =>
    if inherited filename then
      let filePath := cache_file filename in
      let effectiveDefaultValue := defaultValue in
      exist <- read (existsSync filePath);;
      if exist then
        try_catch
          (rawData <- readFileSync filePath;;
           parsed <- lift (JSON_parse rawData);;
           throw (not_a_function "schema.safeParse"))
          (fun error =>
             match effectiveDefaultValue with
             | Some d => saveCache filename d;;; ret d
             | None =>
               throw (Error (lit "Error processing cache '" ++ filename
                             ++ lit "': " ++ message error))
             end)
      else
        match effectiveDefaultValue with
        | Some d => saveCache filename d;;; ret d
        | None =>
          throw (Error (lit "Cache '" ++ filename
            ++ lit "' not found and no default value was provided or defined in the schema."))
        end
    else throw (Error (lit "Schema not found for key: " ++ filename))
  | Some schema =>
    let filePath := cache_file filename in
    let effectiveDefaultValue := effective_default schema defaultValue in
    exist <- read (existsSync filePath);;
    if exist then
      try_catch
        (rawData <- readFileSync filePath;;
         parsed <- lift (JSON_parse rawData);;
         match safeParse schema parsed with
         | None =>
           match effectiveDefaultValue with
           | Some d => saveCache filename d;;; ret d
           | None =>
             throw (Error (lit "Error validating cache '" ++ filename
               ++ lit "' and no default value was provided or defined in the schema."))
           end
         | Some data => ret data
         end)
        (fun error =>
           match effectiveDefaultValue with
           | Some d => saveCache filename d;;; ret d
           | None =>
             throw (Error (lit "Error processing cache '" ++ filename
                           ++ lit "': " ++ message error))
           end)
    else
      match effectiveDefaultValue with
      | Some d => saveCache filename d;;; ret d
      | None =>
        throw (Error (lit "Cache '" ++ filename
          ++ lit "' not found and no default value was provided or defined in the schema."))
      end
  end.

Definition cacheExists (filename : jsstring) (w : world) : bool :=
  existsSync (cache_file filename) w.

Definition clearCache (filename : jsstring) : M unit :=
  exist <- read (existsSync (cache_file filename));;
  if exist then try_catch (unlinkSync (cache_file filename)) (fun _ => ret tt)
  else ret tt.

Definition hasExistingCache (filename : jsstring) (w : world) : bool :=
  existsSync (cache_file filename) w.

Definition createCache (filename : jsstring) (defaultValue : option json)
  : M json :=
  match schemas this !! filename with
  | None =>
    if inherited filename then
      match defaultValue with
      | None =>
        throw (Error (lit "No default value provided or defined in schema for '"
                      ++ filename ++ lit "'"))
      | Some valueToSave => saveCache filename valueToSave;;; ret valueToSave
      end
    else throw (Error (lit "Schema not found for key: " ++ filename))
  | Some schema =>
    match effective_default schema defaultValue with
    | None =>
      throw (Error (lit "No default value provided or defined in schema for '"
                    ++ filename ++ lit "'"))
    | Some valueToSave => saveCache filename valueToSave;;; ret valueToSave
    end
  end.

End CacheController_methods.

(* ===================================================================== *)
(** * util/types/Settings.ts *)
(* ===================================================================== *)

(** [z.object({ instrutor: z.enum(['chat_mode', 'normal']) })]: the value
    must be an object whose [instrutor] is one of the two strings; the
    parsed data keeps that one property. *)
Definition SettingsSchema : ZodType := {|
  safeParse := fun value =>
    match value with
    | JObj props =>
      match props !! lit "instrutor" with
      | Some (JStr s) =>
        if streq s (lit "chat_mode") || streq s (lit "normal")
        then Some (obj [("instrutor"%string, JStr s)])
        else None
      | _ => None
      end
    | _ => None
    end;
  zod_default := None
|}.

(* ===================================================================== *)
(** * util/config/FoxyConfig.ts *)
(* ===================================================================== *)

Inductive Language := pt | en.
Inductive CommitStyle := conventional | simple | detailed.

Record GitConfig := {
  autoAdd : bool;
  confirmBeforeCommit : bool;
  includeStats : bool;
  autoCommit : bool
}.

(** The interface [FoxyConfig]; [maxMessageLength] is a [number], taken
    here to be an integer. *)
Record FoxyConfig := {
  language : Language;
  conventionalCommits : bool;
  commitStyle : CommitStyle;
  maxMessageLength : Z;
  includeScope : bool;
  includeBreakingChanges : bool;
  emojis : bool;
  git : GitConfig
}.

Definition DEFAULT_CONFIG : FoxyConfig := {|
  language := pt;
  conventionalCommits := true;
  commitStyle := conventional;
  maxMessageLength := 72;
  includeScope := true;
  includeBreakingChanges := true;
  emojis := true;
  git := {| autoAdd := true;
            confirmBeforeCommit := false;
            includeStats := true;
            autoCommit := false |}
|}.

(** A config as the object it is at run time. *)
Definition GitConfig_object (g : GitConfig) : json :=
  obj [("autoAdd"%string, JBool (autoAdd g));
       ("confirmBeforeCommit"%string, JBool (confirmBeforeCommit g));
       ("includeStats"%string, JBool (includeStats g));
       ("autoCommit"%string, JBool (autoCommit g))].

Definition FoxyConfig_object (c : FoxyConfig) : json :=
  obj [("language"%string,
        JStr (match language c with pt => lit "pt" | en => lit "en" end));
       ("conventionalCommits"%string, JBool (conventionalCommits c));
       ("commitStyle"%string,
        JStr (match commitStyle c with
              | conventional => lit "conventional"
              | simple => lit "simple"
              | detailed => lit "detailed"
              end));
       ("maxMessageLength"%string, JNum (maxMessageLength c));
       ("includeScope"%string, JBool (includeScope c));
       ("includeBreakingChanges"%string, JBool (includeBreakingChanges c));
       ("emojis"%string, JBool (emojis c));
       ("git"%string, GitConfig_object (git c))].

Record FoxyConfigManager := {
  (** the field [configPath] of the class *)
  foxycfg : jsstring
}.

Definition new_FoxyConfigManager (baseDir : jsstring) : FoxyConfigManager :=
  {| foxycfg := path_join baseDir (lit ".foxycfg") |}.

(** [loadConfig] returns whatever object the merge yields: the file is not
    validated against the interface. *)
Definition loadConfig (this : FoxyConfigManager) : M json :=
  exist <- read (existsSync (foxycfg this));;
  if negb exist then ret (FoxyConfig_object DEFAULT_CONFIG)
  else
    try_catch
      (configContent <- readFileSync (foxycfg this);;
       userConfig <- lift (JSON_parse configContent);;
       let mergedConfig :=
         spread2 (FoxyConfig_object DEFAULT_CONFIG) userConfig in
       userGit <- lift (get_prop userConfig "git");;
       if truthy userGit then
         ret (JObj (<[lit "git" :=
                       JObj (spread2 (GitConfig_object (git DEFAULT_CONFIG))
                                     (default JNull userGit))]>
                    mergedConfig))
       else ret (JObj mergedConfig))
      (fun _ =>
         print (console_warn
           (lit "⚠️ | Erro ao carregar .foxycfg, usando configurações padrão"));;;
         ret (FoxyConfig_object DEFAULT_CONFIG)).

Definition saveConfig (this : FoxyConfigManager) (config : json) : M unit :=
  try_catch (writeFileSync (foxycfg this) (JSON_stringify config))
    (fun error =>
       print (console_error
         (lit "❌ | Erro ao salvar configuração: " ++ message error))).

Definition createDefaultConfig (this : FoxyConfigManager) : M unit :=
  exist <- read (existsSync (foxycfg this));;
  if exist then
    print (console_log
      (lit "⚠️ | .foxycfg já existe! Atualizando com novas configurações..."));;;
    existingConfig <- loadConfig this;;
    let updatedConfig :=
      JObj (spread2 (FoxyConfig_object DEFAULT_CONFIG) existingConfig) in
    saveConfig this updatedConfig;;;
    print (console_log
      (lit "✅ | Arquivo .foxycfg atualizado com novas configurações!"))
  else
    saveConfig this (FoxyConfig_object DEFAULT_CONFIG);;;
    print (console_log
      (lit "✅ | Arquivo .foxycfg criado com configurações padrão!")).

Definition updateConfig (this : FoxyConfigManager) (updates : json) : M unit :=
  currentConfig <- loadConfig this;;
  let newConfig := JObj (spread2 currentConfig updates) in
  saveConfig this newConfig.

(* ===================================================================== *)
(** * util/FoxyClient.ts *)
(* ===================================================================== *)

Inductive PromptMode := chat_mode | any.

(** [GGClient.generate(prompt)]: the answer of the remote model, or the
    error the promise is rejected with. *)
Variable GG_generate : GGClient → jsstring → result jsstring.

(** [functions/exported/PromptToGenerate.ts]: the prompt built from the
    question, the clock, the battery and the directory tree. *)
Variable PromptToGenerate : PromptMode → jsstring → M jsstring.

(** The fields of a [FoxyClient] that never change; [GGProfile] and
    [isInitialized] live in the [world]. *)
Record FoxyClient := {
  CacheManager : CacheController;
  apiKeyManager : ApiKeyManager
}.

Definition new_FoxyClient : M FoxyClient :=
  manager <- (fun w => (new_ApiKeyManager w, w));;
  cache <- new_CacheController
             {[ lit "settings" := SettingsSchema ]} (Some (lit "/tmp"));;
  ret {| CacheManager := cache; apiKeyManager := manager |}.

Section FoxyClient_methods.

Variable this : FoxyClient.

Definition ensureInitialized : M unit :=
  fun w =>
    if isInitialized w && bool_decide (is_Some (GGProfile w)) then (Ok tt, w)
    else
      (apiKey <-
         (exist <- read (hasApiKey (apiKeyManager this));;
          if exist then
            try_catch (loadApiKey (apiKeyManager this))
              (fun error =>
                 print (console_error
                   (lit "❌ | Erro ao carregar API key: " ++ message error));;;
                 print (console_log
                   (lit "🔧 | Vamos configurar uma nova API key..." ++ [LF]));;;
                 setupApiKey (apiKeyManager this))
          else setupApiKey (apiKeyManager this));;
       fun w' =>
         (Ok tt,
          with_client w'
            (Some {| GOOGLE_API_KEY := apiKey;
                     modelName := lit "gemini-2.0-flash" |})
            true)) w.

(** [responder(text)]; the outer result is the call itself, the inner one
    the promise [responded] it hands back (the [date] of the answer is left
    out). *)
Definition responder (text : jsstring) : M (result jsstring) :=
  ensureInitialized;;;
  profile <- read GGProfile;;
  match profile with
  | None => throw (Error (lit "Cliente não inicializado"))
  | Some GGProfile =>
    exist <- read (hasExistingCache (CacheManager this) (lit "settings"));;
    (if negb exist then
       createCache (CacheManager this) (lit "settings")
         (Some (obj [("instrutor"%string, JStr (lit "normal"))]));;;
       ret tt
     else ret tt);;;
    cache <- loadCache (CacheManager this) (lit "settings") None;;
    instrutor <- lift (get_prop cache "instrutor");;
    let mode :=
      if strictly_equals instrutor (lit "chat_mode") then chat_mode else any in
    prompt <- PromptToGenerate mode text;;
    ret (GG_generate GGProfile prompt)
  end.

(** [resetApiKey] *)
Definition resetApiKey : M unit :=
  deleteApiKey (apiKeyManager this);;;
  (fun w => (Ok tt, with_client w None false));;;
  print (console_log
    (lit "🔄 | API key resetada. Na próxima execução será solicitada uma nova.")).

Definition isConfigured (w : world) : bool := hasApiKey (apiKeyManager this) w.

End FoxyClient_methods.

(* ===================================================================== *)
(** * util/CommitMessageGenerator.ts *)
(* ===================================================================== *)

Record GitChanges := {
  added : list jsstring;
  modified : list jsstring;
  deleted : list jsstring
}.

Definition quoted (s : jsstring) : jsstring := [DQUOTE] ++ s ++ [DQUOTE].

Definition imperative_examples : jsstring :=
  lit "(ex: " ++ quoted (lit "Adiciona") ++ lit ", " ++ quoted (lit "Corrige")
  ++ lit ", " ++ quoted (lit "Remove") ++ lit ")".

Section CommitMessageGenerator_methods.

Variable foxyClient : FoxyClient.
Variable config : FoxyConfig.

(** One of the three blocks of [buildChangeSummary], which differ by their
    label and their list only: what the block pushes onto [summary]. *)
Definition summary_line (label : jsstring) (paths : list jsstring)
  : list jsstring :=
  if bool_decide (0 < length paths)%nat then
    let files := join (lit ", ") (take 5 paths) in
    let more :=
      if bool_decide (5 < length paths)%nat
      then lit " e mais " ++ String_of_nat (length paths - 5)
      else [] in
    [label ++ files ++ more]
  else [].

Definition buildChangeSummary (changes : GitChanges) : jsstring :=
  let summary :=
    summary_line (lit "Adicionados: ") (added changes)
    ++ summary_line (lit "Modificados: ") (modified changes)
    ++ summary_line (lit "Removidos: ") (deleted changes) in
  join [LF] summary.

Definition cleanMessage (message : jsstring) : jsstring :=
  substring (newlines_to_spaces (remove_quotes (trim message)))
            0 (Some (maxMessageLength config)).

Definition getFallbackMessage (changes : GitChanges) : jsstring :=
  let totalChanges :=
    (length (added changes) + length (modified changes)
     + length (deleted changes))%nat in
  let emoji := if emojis config then lit "✨ " else [] in
  if conventionalCommits config then
    if bool_decide (length (modified changes) < length (added changes))%nat
    then emoji ++ lit "feat: adiciona " ++ String_of_nat totalChanges
         ++ lit " arquivo(s)"
    else if bool_decide (0 < length (modified changes))%nat
    then emoji ++ lit "fix: atualiza " ++ String_of_nat totalChanges
         ++ lit " arquivo(s)"
    else emoji ++ lit "chore: atualiza " ++ String_of_nat totalChanges
         ++ lit " arquivo(s)"
  else emoji ++ lit "Atualiza " ++ String_of_nat totalChanges
       ++ lit " arquivo(s)".

Definition language_name : jsstring :=
  match language config with
  | pt => lit "português brasileiro"
  | en => lit "english"
  end.

Definition conventional_prompt (changeSummary : jsstring) : jsstring :=
  let emojiInstruction :=
    if emojis config
    then lit "- Inclua emoji no início da mensagem (ex: ✨ feat: nova funcionalidade)"
    else lit "- NÃO inclua emojis na mensagem" in
  join [LF]
    [lit "Analise as seguintes mudanças no código e gere uma mensagem de commit seguindo Conventional Commits:";
     [];
     changeSummary;
     [];
     lit "Gere uma mensagem no formato: tipo(escopo): descrição";
     [];
     lit "Tipos disponíveis:";
     lit "- feat: nova funcionalidade";
     lit "- fix: correção de bug";
     lit "- refactor: refatoração de código";
     lit "- style: mudanças de formatação/estilo";
     lit "- docs: documentação";
     lit "- test: testes";
     lit "- chore: tarefas de manutenção";
     lit "- perf: melhorias de performance";
     lit "- ci: integração contínua";
     lit "- build: sistema de build";
     lit "- revert: reverter commit";
     [];
     lit "Regras:";
     lit "- Use " ++ language_name;
     lit "- Seja conciso e claro";
     lit "- Máximo " ++ String_of_Z (maxMessageLength config)
       ++ lit " caracteres";
     lit "- Use imperativo " ++ imperative_examples;
     lit "- Escopo é opcional, use apenas se relevante";
     lit "- " ++ emojiInstruction;
     lit "- Não inclua aspas na resposta";
     [];
     lit "Responda apenas com a mensagem do commit:"].

Definition simple_prompt (changeSummary : jsstring) : jsstring :=
  join [LF]
    [lit "Com base nas seguintes mudanças no código, gere uma mensagem de commit concisa e descritiva em "
       ++ language_name ++ lit ":";
     [];
     changeSummary;
     [];
     lit "A mensagem deve:";
     lit "- Ser clara e objetiva";
     lit "- Descrever o que foi feito";
     lit "- Usar imperativo " ++ imperative_examples;
     lit "- Ter no máximo " ++ String_of_Z (maxMessageLength config)
       ++ lit " caracteres";
     lit "- Não incluir aspas ou caracteres especiais";
     [];
     lit "Responda apenas com a mensagem do commit:"].

Definition generateConventionalCommit (changes : GitChanges)
    (changeSummary : jsstring) : M jsstring :=
  let prompt := conventional_prompt changeSummary in
  try_catch
    (answer <- responder foxyClient prompt;;
     message <- lift answer;;
     ret (cleanMessage message))
    (fun _ => ret (getFallbackMessage changes)).

Definition generateSimpleCommit (changes : GitChanges)
    (changeSummary : jsstring) : M jsstring :=
  let prompt := simple_prompt changeSummary in
  try_catch
    (answer <- responder foxyClient prompt;;
     message <- lift answer;;
     ret (cleanMessage message))
    (fun _ => ret (getFallbackMessage changes)).

Definition generateCommitMessage (changes : GitChanges) : M jsstring :=
  let changeSummary := buildChangeSummary changes in
  if conventionalCommits config
  then generateConventionalCommit changes changeSummary
  else generateSimpleCommit changes changeSummary.

Definition detectCommitType (changes : GitChanges) : jsstring :=
  let allFiles := added changes ++ modified changes ++ deleted changes in
  let some_includes (words : list jsstring) :=
    existsb (fun f => existsb (includes f) words) allFiles in
  if some_includes [lit "test"; lit "spec"] then lit "test"
  else if some_includes [lit "docs"; lit "README"; lit ".md"] then lit "docs"
  else if some_includes [lit "style"; lit "css"; lit "scss"] then lit "style"
  else if some_includes [lit "config"; lit "package.json"; lit "tsconfig"]
  then lit "chore"
  else if bool_decide (length (modified changes) < length (added changes))%nat
  then lit "feat"
  else if bool_decide (0 < length (modified changes))%nat then lit "fix"
  else lit "chore".

End CommitMessageGenerator_methods.

(* ===================================================================== *)
(** * index.ts *)
(* ===================================================================== *)

(** The body of the [for] loop of [parseGitStatus]: one line pushed onto
    the lists its two-character code names. *)
Definition classify (acc : GitChanges) (line : jsstring) : GitChanges :=
  let status := substring line 0 (Some 2%Z) in
  let file := substring line 3 None in
  let acc :=
    if includes status (lit "A")
    then {| added := added acc ++ [file]; modified := modified acc;
            deleted := deleted acc |}
    else acc in
  let acc :=
    if includes status (lit "M")
    then {| added := added acc; modified := modified acc ++ [file];
            deleted := deleted acc |}
    else acc in
  if includes status (lit "D")
  then {| added := added acc; modified := modified acc;
          deleted := deleted acc ++ [file] |}
  else acc.

Definition parseGitStatus (status : jsstring) : GitChanges :=
  let lines :=
    filter (fun line => trim line ≠ []) (split LF status) in
  fold_left classify lines {| added := []; modified := []; deleted := [] |}.

(* ===================================================================== *)
(** * The module of [TrasformeToFile] *)
(* ===================================================================== *)

(** [path.dirname(p)] of [node:path] *)
Variable path_dirname : jsstring → jsstring.

(** One file block of an answer of the model, as [TrasformeToFile] hands it
    to [handleFileCreation]. *)
Record GeneratedFile := {
  filePath : jsstring;
  content : jsstring;
  name : jsstring
}.

(** [askUser(question)]: the line the operator types, in lower case and
    trimmed. *)
Definition askUser (query : jsstring) : M jsstring :=
  answer <- question query;;
  ret (trim (toLowerCase answer)).

Definition handleFileCreation (file : GeneratedFile) : M unit :=
  exist <- read (existsSync (filePath file));;
  proceed <-
    (if exist then
       answer <- askUser
         (lit "🟡 | O arquivo " ++ quoted (filePath file)
          ++ lit " já existe. Deseja sobrescrever? (s/n): ");;
       if negb (streq answer (lit "s")) && negb (streq answer (lit "sim"))
       then
         print (console_log (lit "🚫 | Arquivo ignorado: " ++ filePath file));;;
         ret false
       else ret true
     else ret true);;
  if proceed then
    let dir := path_dirname (filePath file) in
    mkdirSync dir;;;
    writeFileSync (filePath file) (content file);;;
    print (console_log
      (lit "✅ | Arquivo salvo com sucesso em: " ++ filePath file))
  else ret tt.

(* ===================================================================== *)
(** * A small concrete machine *)
(* ===================================================================== *)

(** Stand-ins for the externals, simple enough to run, on which the
    statements below are exercised. *)

Definition sample_host : host := {|
  platform := lit "linux";
  process_env := {[ lit "USER" := lit "pedro" ]};
  homedir := lit "/home/pedro";
  system_profiler := Throw (Error (lit "Command failed: system_profiler"))
|}.

(** sixty-four times the digit zero *)
Definition sample_sha256_hex (_ : jsstring) : jsstring := replicate 64 48%N.

(** a cipher that leaves the text as it is, one byte per code unit *)
Definition sample_encrypt (_ : jsstring) (_ : list Byte.byte)
    (text : jsstring) : result (list Byte.byte) :=
  Ok (map (fun c => default Byte.x00 (Byte.of_N c)) text).

Definition sample_decrypt (_ : jsstring) (_ : list Byte.byte)
    (encryptedHex : jsstring) : result jsstring :=
  Ok (map Byte.to_N (Buffer_from_hex encryptedHex)).

Definition sample_random (_ : nat) : Byte.byte := Byte.x2a.

Definition sample_operator (_ : nat) : jsstring := lit "AIzaTESTKEY".

(** a codec for settings objects only: the text is the [instrutor] *)
Definition sample_stringify (value : json) : jsstring :=
  match value with
  | JObj props =>
    match props !! lit "instrutor" with
    | Some (JStr s) => s
    | _ => lit "{}"
    end
  | _ => lit "null"
  end.

Definition sample_parse (text : jsstring) : result json :=
  if streq text (lit "{") then Throw (Error (lit "Unexpected end of JSON input"))
  else Ok (obj [("instrutor"%string, JStr text)]).

Definition sample_generate_ok (_ : GGClient) (_ : jsstring) : result jsstring :=
  Ok (lit "  'feat': add parser" ++ [LF] ++ lit "for status lines ").

Definition sample_generate_fail (_ : GGClient) (_ : jsstring)
  : result jsstring :=
  Throw (Error (lit "Failed to generate text: fetch failed")).

Definition sample_PromptToGenerate (_ : PromptMode) (question : jsstring)
  : M jsstring :=
  ret question.

Definition sample_manager : ApiKeyManager := {|
  configPath := lit "/home/pedro/.foxy-config.enc";
  encryptionKey := replicate 32 48%N
|}.

Definition sample_cache : CacheController := {|
  cacheDir := lit "/tmp/foxy_cache";
  schemas := {[ lit "settings" := SettingsSchema ]}
|}.

Definition sample_client : FoxyClient := {|
  CacheManager := sample_cache;
  apiKeyManager := sample_manager
|}.

Definition settings_path : jsstring :=
  lit "/tmp/foxy_cache/settings.json.cache".

(** an empty disk, nothing printed, a client not yet initialised *)
Definition fresh_world : world := {|
  fs := ∅; console := []; drawn := 0; answered := 0;
  GGProfile := None; isInitialized := false
|}.

(** a client already initialised, and a valid settings file *)
Definition ready_world : world := {|
  fs := {[ settings_path := File (lit "normal") ]};
  console := []; drawn := 0; answered := 0;
  GGProfile := Some {| GOOGLE_API_KEY := lit "AIzaTESTKEY";
                       modelName := lit "gemini-2.0-flash" |};
  isInitialized := true
|}.

(** a secret file without the colon that separates IV and ciphertext *)
Definition malformed_world : world :=
  with_fs fresh_world {[ configPath sample_manager := File (lit "abc") ]}.

(** a settings file whose [instrutor] is none of the two accepted *)
Definition broken_settings_world : world :=
  with_fs ready_world {[ settings_path := File (lit "invalid") ]}.

(** a machine whose [/etc/machine-id] is there but cannot be read *)
Definition unreadable_machine_id_world : world :=
  with_fs fresh_world {[ lit "/etc/machine-id" := Directory ]}.

(** an operator who only ever types blanks *)
Definition blank_operator (_ : nat) : jsstring := lit "   ".

(** an operator who types a key of another shape and then declines *)
Definition declining_operator (n : nat) : jsstring :=
  match n with
  | O => lit "sk-other-key"
  | S _ => lit "N"
  end.

(** an operator who agrees to overwrite *)
Definition agreeing_operator (_ : nat) : jsstring := lit " Sim ".

(** a [.foxycfg] that sets the language and one flag of the [git] group *)
Definition user_config : json :=
  obj [("language"%string, JStr (lit "en"));
       ("git"%string, obj [("autoAdd"%string, JBool false)])].

(** the config [loadConfig] makes of that file *)
Definition user_config_loaded : json :=
  obj [("language"%string, JStr (lit "en"));
       ("conventionalCommits"%string, JBool true);
       ("commitStyle"%string, JStr (lit "conventional"));
       ("maxMessageLength"%string, JNum 72);
       ("includeScope"%string, JBool true);
       ("includeBreakingChanges"%string, JBool true);
       ("emojis"%string, JBool true);
       ("git"%string, obj [("autoAdd"%string, JBool false);
                           ("confirmBeforeCommit"%string, JBool false);
                           ("includeStats"%string, JBool true);
                           ("autoCommit"%string, JBool false)])].

(** an update that carries one flag of the [git] group *)
Definition git_update : gmap jsstring json :=
  {[ lit "git" := obj [("autoCommit"%string, JBool true)] ]}.

(** the loaded config with its [git] group replaced by that of the update *)
Definition user_config_updated : json :=
  obj [("language"%string, JStr (lit "en"));
       ("conventionalCommits"%string, JBool true);
       ("commitStyle"%string, JStr (lit "conventional"));
       ("maxMessageLength"%string, JNum 72);
       ("includeScope"%string, JBool true);
       ("includeBreakingChanges"%string, JBool true);
       ("emojis"%string, JBool true);
       ("git"%string, obj [("autoCommit"%string, JBool true)])].

(** a codec for these configs and the default one: the text is a name,
    told by the flag [autoAdd] of the [git] group *)
Definition config_stringify (value : json) : jsstring :=
  match value with
  | JObj props =>
    match props !! lit "git" with
    | Some (JObj group) =>
      match group !! lit "autoAdd" with
      | Some (JBool false) => lit "loaded"
      | Some _ => lit "default"
      | None => lit "updated"
      end
    | _ => lit "{}"
    end
  | _ => lit "null"
  end.

Definition config_parse (text : jsstring) : result json :=
  if streq text (lit "user") then Ok user_config
  else if streq text (lit "loaded") then Ok user_config_loaded
  else if streq text (lit "updated") then Ok user_config_updated
  else if streq text (lit "{") then
    Throw (Error (lit "Unexpected end of JSON input"))
  else Ok (FoxyConfig_object DEFAULT_CONFIG).

(** [resolve] on a POSIX machine whose working directory is
    [/home/pedro/project] *)
Definition sample_resolve (from to : jsstring) : jsstring :=
  let absolute (path : jsstring) := startsWith path (lit "/") in
  let whole :=
    if absolute to then to
    else if absolute from then from ++ lit "/" ++ to
    else lit "/home/pedro/project/" ++ from ++ lit "/" ++ to in
  let step (kept : list jsstring) (segment : jsstring) :=
    if streq segment [] || streq segment (lit ".") then kept
    else if streq segment (lit "..") then removelast kept
    else kept ++ [segment] in
  match fold_left step (split 47%N whole) [] with
  | [] => lit "/"
  | segments => flat_map (fun segment => lit "/" ++ segment) segments
  end.

Definition sample_dirname (_ : jsstring) : jsstring := lit "/tmp".

Definition sample_config_manager : FoxyConfigManager :=
  new_FoxyConfigManager (lit "/home/pedro/project").

(** a project whose [.foxycfg] is the file above *)
Definition user_config_world : world :=
  with_fs fresh_world {[ foxycfg sample_config_manager := File (lit "user") ]}.

Definition sample_file : GeneratedFile := {|
  filePath := lit "/tmp/hello.ts";
  content := lit "console.log(1)";
  name := lit "./hello.ts"
|}.

(** the secret path holds a directory: it can be neither read nor written *)
Definition unwritable_secret_world : world :=
  with_fs fresh_world {[ configPath sample_manager := Directory ]}.

(** a settings file that is not JSON *)
Definition unparsable_settings_world : world :=
  with_fs ready_world {[ settings_path := File (lit "{") ]}.

(** the settings path holds a directory *)
Definition unwritable_settings_world : world :=
  with_fs ready_world {[ settings_path := Directory ]}.

(** a client already initialised, and no settings file yet *)
Definition first_run_world : world := with_fs ready_world ∅.

(** the generated file is already there *)
Definition existing_file_world : world :=
  with_fs fresh_world {[ filePath sample_file := File (lit "old") ]}.

Definition three_changes : GitChanges := {|
  added := [lit "new.ts"];
  modified := [lit "old.ts"];
  deleted := [lit "gone.ts"]
|}.

Definition config_with_max (n : Z) : FoxyConfig := {|
  language := language DEFAULT_CONFIG;
  conventionalCommits := conventionalCommits DEFAULT_CONFIG;
  commitStyle := commitStyle DEFAULT_CONFIG;
  maxMessageLength := n;
  includeScope := includeScope DEFAULT_CONFIG;
  includeBreakingChanges := includeBreakingChanges DEFAULT_CONFIG;
  emojis := emojis DEFAULT_CONFIG;
  git := git DEFAULT_CONFIG
|}.

(* ===================================================================== *)
(** * Vocabulary of the statements *)
(* ===================================================================== *)

(** The two-character code of a status line holds the letter. *)
Definition has_code (letter : N) (line : jsstring) : bool :=
  bool_decide (letter ∈ take 2 line).

(** The paths, from the fourth character onward, of the lines whose code
    holds the letter, in their order. *)
Definition paths_with (letter : N) (lines : list jsstring) : list jsstring :=
  map (drop 3) (filter (fun line => has_code letter line = true) lines).

(** The prompt [generateCommitMessage] sends for a config and changes. *)
Definition commit_prompt (config : FoxyConfig) (changes : GitChanges)
  : jsstring :=
  if conventionalCommits config
  then conventional_prompt config (buildChangeSummary changes)
  else simple_prompt config (buildChangeSummary changes).

(** What either generator does with its prompt: ask the client, await the
    answer, clean it; anything thrown on the way gives the fallback. *)
Definition generate_from (foxyClient : FoxyClient) (config : FoxyConfig)
    (prompt : jsstring) (changes : GitChanges) : M jsstring :=
  try_catch
    (answer <- responder foxyClient prompt;;
     message <- lift answer;;
     ret (cleanMessage config message))
    (fun _ => ret (getFallbackMessage config changes)).

(** The fallback message as a function of two flags and three counts. *)
Definition fallback_template (emoji conv : bool) (nadded nmodified ndeleted : nat)
  : jsstring :=
  let total := String_of_nat (nadded + nmodified + ndeleted) in
  let prefix := if emoji then lit "✨ " else [] in
  let body :=
    if conv then
      if bool_decide (nmodified < nadded)%nat then lit "feat: adiciona "
      else if bool_decide (0 < nmodified)%nat then lit "fix: atualiza "
      else lit "chore: atualiza "
    else lit "Atualiza " in
  prefix ++ body ++ total ++ lit " arquivo(s)".

(** The OS user name the fallback identifiers end in: the variable [USER]
    of the environment when it is set and not empty, else the word
    [user]. *)
Definition os_user_name : jsstring :=
  match process_env h !! lit "USER" with
  | Some name => if bool_decide (name = []) then lit "user" else name
  | None => lit "user"
  end.

(** The content of the secret file: IV and ciphertext in hexadecimal,
    a colon between them. *)
Definition secret_record (iv cipher : list Byte.byte) : jsstring :=
  toString_hex iv ++ lit ":" ++ toString_hex cipher.

(** The sixteen bytes the next [randomBytes(16)] returns. *)
Definition next_iv (w : world) : list Byte.byte :=
  map random_source (seq (drawn w) 16).

(** The one error [decrypt] throws. *)
Definition decryption_error : error :=
  Error (lit "Erro ao descriptografar a API key - pode ter sido corrompida").

(** What [saveCache] prints for a value that violates the schema. *)
Definition validation_warning (filename : jsstring) : log_entry :=
  console_warn
    (lit "WARNING: Data being saved for '" ++ filename
     ++ lit "' does not validate against the schema. Errors:").

(** A computation that leaves what the disk holds at [path] as it is. *)
Definition keeps {A} (path : jsstring) (m : M A) : Prop :=
  ∀ w, fs (snd (m w)) !! path = fs w !! path.

(** The file of the cache key [settings]. *)
Definition settings_file (this : FoxyClient) : jsstring :=
  cache_file (CacheManager this) (lit "settings").

(** The merge as the specification words it: the top-level keys of the
    file laid over the defaults and, when the file has a truthy [git]
    group, that group laid over the default [git] group. *)
Definition merge_over_defaults (userConfig : json) : json :=
  let top :=
    own_props userConfig ∪ own_props (FoxyConfig_object DEFAULT_CONFIG) in
  match own_props userConfig !! lit "git" with
  | Some userGit =>
    if truthy (Some userGit) then
      JObj (<[lit "git" :=
               JObj (own_props userGit
                     ∪ own_props (GitConfig_object (git DEFAULT_CONFIG)))]>
            top)
    else JObj top
  | None => JObj top
  end.

(** What [loadConfig] prints when it falls back on the defaults. *)
Definition config_warning : log_entry :=
  console_warn
    (lit "⚠️ | Erro ao carregar .foxycfg, usando configurações padrão").

(** The settings [responder] seeds on a first run. *)
Definition normal_settings : json :=
  obj [("instrutor"%string, JStr (lit "normal"))].

(** A code unit that is no quote and no line feed. *)
Definition plain (c : N) : bool :=
  negb (c =? SQUOTE)%N && negb (c =? DQUOTE)%N && negb (c =? LF)%N.

(* ===================================================================== *)
(** * Properties *)
(* ===================================================================== *)

(** Drops from the context of a proof the externals its goal does not
    mention, so that automation cannot pick them up. *)
Ltac forget_externals :=
  try clear path_dirname; try clear path_resolve; try clear require_error; try clear PromptToGenerate; try clear GG_generate;
  try clear JSON_stringify; try clear JSON_parse;
  try clear operator; try clear random_source;
  try clear aes_256_cbc_decrypt; try clear aes_256_cbc_encrypt;
  try clear sha256_hex; try clear h.

(** ** Strings *)

Example lit_sparkles : lit "✨ " = [0x2728%N; 32%N].
Proof. reflexivity. Qed.

Example lit_latin : lit "não" = [110%N; 0xE3%N; 111%N].
Proof. reflexivity. Qed.

Example substring_negative : substring (lit "abc") 0 (Some (-1)%Z) = [].
Proof. reflexivity. Qed.

Example substring_tail : substring (lit " M old.ts") 3 None = lit "old.ts".
Proof. reflexivity. Qed.

Example split_colon : split COLON (lit "a:b:c") = [lit "a"; lit "b"; lit "c"].
Proof. reflexivity. Qed.

Example trim_both : trim (lit "  a b" ++ [LF; SPACE]) = lit "a b".
Proof. reflexivity. Qed.

Example String_of_nat_120 : String_of_nat 120 = lit "120".
Proof. reflexivity. Qed.

Example hex_roundtrip_sample :
  Buffer_from_hex (toString_hex [Byte.x00; Byte.xff; Byte.x1a])
  = [Byte.x00; Byte.xff; Byte.x1a].
Proof. reflexivity. Qed.

Lemma clamp_nat (len n : nat) : clamp len (Z.of_nat n) = Nat.min n len.
Proof. unfold clamp. lia. Qed.

Lemma clamp_nonpos (len : nat) (i : Z) : (i <= 0)%Z → clamp len i = 0%nat.
Proof. unfold clamp. lia. Qed.

Lemma clamp_le (len : nat) (i : Z) : (clamp len i <= len)%nat.
Proof. unfold clamp. lia. Qed.

Lemma substring_prefix (s : jsstring) (n : nat) :
  substring s 0 (Some (Z.of_nat n)) = take n s.
Proof.
  unfold substring. rewrite (clamp_nonpos _ 0%Z) by lia. rewrite clamp_nat.
  rewrite Nat.min_0_l, Nat.max_0_l, Nat.sub_0_r, drop_0.
  destruct (Nat.le_ge_cases n (length s)) as [Hle|Hge].
  - now rewrite Nat.min_l.
  - rewrite Nat.min_r by lia. now rewrite !take_ge by lia.
Qed.

Lemma substring_suffix (s : jsstring) (n : nat) :
  substring s (Z.of_nat n) None = drop n s.
Proof.
  unfold substring. rewrite clamp_nat.
  destruct (Nat.le_ge_cases n (length s)) as [Hle|Hge].
  - rewrite (Nat.min_l n) by lia. rewrite Nat.min_l, Nat.max_r by lia.
    apply take_ge. rewrite length_drop. lia.
  - rewrite (Nat.min_r n) by lia. rewrite Nat.min_id, Nat.max_id, Nat.sub_diag.
    rewrite !drop_ge by lia. reflexivity.
Qed.

Lemma substring_length_bound (s : jsstring) (n : Z) :
  (jslength (substring s 0 (Some n)) <= Z.max 0 n)%Z.
Proof.
  unfold jslength, substring. rewrite (clamp_nonpos _ 0%Z) by lia.
  rewrite Nat.min_0_l, Nat.max_0_l, Nat.sub_0_r, drop_0, length_take.
  unfold clamp. lia.
Qed.

Lemma includes_single (s : jsstring) (c : N) :
  includes s [c] = bool_decide (c ∈ s).
Proof.
  forget_externals. induction s as [|x r IH]; cbn.
  - symmetry. apply bool_decide_eq_false. apply not_elem_of_nil.
  - rewrite IH, andb_true_r.
    destruct (N.eqb_spec x c) as [->|Hne]; cbn.
    + symmetry. apply bool_decide_eq_true. left.
    + apply bool_decide_ext. rewrite elem_of_cons. intuition congruence.
Qed.

(** ** index.ts: parsing of [git status --porcelain] *)

Lemma classify_added (acc : GitChanges) (line : jsstring) :
  added (classify acc line)
  = added acc ++ (if has_code 65 line then [drop 3 line] else []).
Proof.
  unfold classify, has_code.
  change 2%Z with (Z.of_nat 2). change 3%Z with (Z.of_nat 3).
  rewrite substring_prefix, substring_suffix.
  change (lit "A") with [65%N]. change (lit "M") with [77%N].
  change (lit "D") with [68%N]. rewrite !includes_single.
  repeat case_bool_decide; cbn; now rewrite ?app_nil_r.
Qed.

Lemma classify_modified (acc : GitChanges) (line : jsstring) :
  modified (classify acc line)
  = modified acc ++ (if has_code 77 line then [drop 3 line] else []).
Proof.
  unfold classify, has_code.
  change 2%Z with (Z.of_nat 2). change 3%Z with (Z.of_nat 3).
  rewrite substring_prefix, substring_suffix.
  change (lit "A") with [65%N]. change (lit "M") with [77%N].
  change (lit "D") with [68%N]. rewrite !includes_single.
  repeat case_bool_decide; cbn; now rewrite ?app_nil_r.
Qed.

Lemma classify_deleted (acc : GitChanges) (line : jsstring) :
  deleted (classify acc line)
  = deleted acc ++ (if has_code 68 line then [drop 3 line] else []).
Proof.
  unfold classify, has_code.
  change 2%Z with (Z.of_nat 2). change 3%Z with (Z.of_nat 3).
  rewrite substring_prefix, substring_suffix.
  change (lit "A") with [65%N]. change (lit "M") with [77%N].
  change (lit "D") with [68%N]. rewrite !includes_single.
  repeat case_bool_decide; cbn; now rewrite ?app_nil_r.
Qed.

Lemma paths_with_cons (letter : N) (line : jsstring) (lines : list jsstring) :
  paths_with letter (line :: lines)
  = (if has_code letter line then [drop 3 line] else [])
    ++ paths_with letter lines.
Proof.
  unfold paths_with. rewrite filter_cons.
  destruct (has_code letter line) eqn:E; case_decide; try done.
Qed.

Lemma fold_classify (lines : list jsstring) (acc : GitChanges) :
  let r := fold_left classify lines acc in
  added r = added acc ++ paths_with 65 lines
  ∧ modified r = modified acc ++ paths_with 77 lines
  ∧ deleted r = deleted acc ++ paths_with 68 lines.
Proof.
  revert acc. induction lines as [|line lines IH]; intros acc; cbn [fold_left].
  - unfold paths_with. cbn. now rewrite !app_nil_r.
  - destruct (IH (classify acc line)) as (Ha & Hm & Hd).
    rewrite Ha, Hm, Hd, !paths_with_cons.
    rewrite classify_added, classify_modified, classify_deleted.
    now rewrite <- !app_assoc.
Qed.

(** C7. The three lines [A  new.ts], [ M old.ts], [D  gone.ts] parse to
    added = [new.ts], modified = [old.ts], deleted = [gone.ts]; and for any
    status text, over its lines that are not blank, a line whose first two
    characters contain [A] (resp. [M], [D]) contributes the line from its
    fourth character onward to [added] (resp. [modified], [deleted]), in
    order, and nothing else does. *)
Theorem parseGitStatus_classifies :
  parseGitStatus
    (join [LF] [lit "A  new.ts"; lit " M old.ts"; lit "D  gone.ts"])
  = {| added := [lit "new.ts"];
       modified := [lit "old.ts"];
       deleted := [lit "gone.ts"] |}
  ∧ ∀ status : jsstring,
      let lines := filter (fun line => trim line ≠ []) (split LF status) in
      added (parseGitStatus status) = paths_with 65 lines
      ∧ modified (parseGitStatus status) = paths_with 77 lines
      ∧ deleted (parseGitStatus status) = paths_with 68 lines.
Proof.
  split; [reflexivity|].
  intros status lines. unfold parseGitStatus. fold lines.
  exact (fold_classify lines {| added := []; modified := []; deleted := [] |}).
Qed.


(** ** util/CommitMessageGenerator.ts *)

Lemma substring_subseteq (s : jsstring) (a : Z) (b : option Z) :
  substring s a b ⊆ s.
Proof.
  forget_externals. unfold substring.
  etransitivity; [apply subseteq_take | apply subseteq_drop].
Qed.

Lemma remove_quotes_spec (s : jsstring) (c : N) :
  c ∈ remove_quotes s ↔ (c ≠ SQUOTE ∧ c ≠ DQUOTE) ∧ c ∈ s.
Proof. unfold remove_quotes. now rewrite list_elem_of_filter. Qed.

Lemma newlines_to_spaces_spec (s : jsstring) (c : N) :
  c ∈ newlines_to_spaces s → c ≠ LF ∧ (c = SPACE ∨ c ∈ s).
Proof.
  forget_externals. unfold newlines_to_spaces.
  rewrite list_elem_of_In, in_map_iff. intros (y & Hy & Hin).
  rewrite <- list_elem_of_In in Hin.
  destruct (y =? LF)%N eqn:E; subst c.
  - split; [discriminate | now left].
  - apply N.eqb_neq in E. split; [assumption | now right].
Qed.

Lemma cleanMessage_length (config : FoxyConfig) (message : jsstring) :
  (jslength (cleanMessage config message)
   <= Z.max 0 (maxMessageLength config))%Z.
Proof. apply substring_length_bound. Qed.

Lemma cleanMessage_chars (config : FoxyConfig) (message : jsstring) (c : N) :
  c ∈ cleanMessage config message → c ≠ SQUOTE ∧ c ≠ DQUOTE ∧ c ≠ LF.
Proof.
  forget_externals. intros Hin. apply substring_subseteq in Hin.
  apply newlines_to_spaces_spec in Hin as (Hlf & [->|Hin]).
  - repeat split; discriminate.
  - apply remove_quotes_spec in Hin as ((Hs & Hd) & _). auto.
Qed.

Lemma generateCommitMessage_unfold (foxyClient : FoxyClient)
    (config : FoxyConfig) (changes : GitChanges) :
  generateCommitMessage foxyClient config changes
  = generate_from foxyClient config (commit_prompt config changes) changes.
Proof.
  unfold generateCommitMessage, commit_prompt, generateConventionalCommit,
    generateSimpleCommit, generate_from.
  now destruct (conventionalCommits config).
Qed.

Lemma generate_from_success (foxyClient : FoxyClient) (config : FoxyConfig)
    (prompt : jsstring) (changes : GitChanges) (w w' : world)
    (message : jsstring) :
  responder foxyClient prompt w = (Ok (Ok message), w') →
  generate_from foxyClient config prompt changes w
  = (Ok (cleanMessage config message), w').
Proof.
  intros H. unfold generate_from, try_catch, bind. now rewrite H.
Qed.

Lemma generate_from_failure (foxyClient : FoxyClient) (config : FoxyConfig)
    (prompt : jsstring) (changes : GitChanges) (w w' : world) (e : error) :
  responder foxyClient prompt w = (Throw e, w')
  ∨ responder foxyClient prompt w = (Ok (Throw e), w') →
  generate_from foxyClient config prompt changes w
  = (Ok (getFallbackMessage config changes), w').
Proof.
  intros [H|H]; unfold generate_from, try_catch, bind; now rewrite H.
Qed.

Lemma getFallbackMessage_template (config : FoxyConfig) (changes : GitChanges) :
  getFallbackMessage config changes
  = fallback_template (emojis config) (conventionalCommits config)
      (length (added changes)) (length (modified changes))
      (length (deleted changes)).
Proof.
  unfold getFallbackMessage, fallback_template.
  destruct (conventionalCommits config); [|reflexivity].
  repeat case_bool_decide; reflexivity.
Qed.

(** C6. When the call to the remote model fails (the responder throws, or
    the promise it returns is rejected), [generateCommitMessage] does not
    throw: it returns the fallback message, and that message is a function
    of the emoji flag, the conventional-commits flag and the three change
    counts only. *)
Theorem generateCommitMessage_falls_back (foxyClient : FoxyClient)
    (config : FoxyConfig) (changes : GitChanges) (w w' : world) (e : error) :
  responder foxyClient (commit_prompt config changes) w = (Throw e, w')
  ∨ responder foxyClient (commit_prompt config changes) w
    = (Ok (Throw e), w') →
  generateCommitMessage foxyClient config changes w
  = (Ok (fallback_template (emojis config) (conventionalCommits config)
           (length (added changes)) (length (modified changes))
           (length (deleted changes))), w').
Proof.
  intros H. rewrite generateCommitMessage_unfold.
  rewrite (generate_from_failure _ _ _ _ _ _ _ H).
  now rewrite getFallbackMessage_template.
Qed.

(** C10 (amended). When the call to the remote model succeeds, the message
    [generateCommitMessage] returns is the cleaned answer: its length is at
    most [max(0, maxMessageLength)] and it holds no single quote, no double
    quote and no line feed.  The fallback message is not cleaned and not
    bounded: with [maxMessageLength = 10] it is longer than 10. *)
Theorem generateCommitMessage_cleaned (foxyClient : FoxyClient)
    (config : FoxyConfig) (changes : GitChanges) (w w' : world)
    (message : jsstring) :
  responder foxyClient (commit_prompt config changes) w
  = (Ok (Ok message), w') →
  (∃ m : jsstring,
     generateCommitMessage foxyClient config changes w = (Ok m, w')
     ∧ m = cleanMessage config message
     ∧ (jslength m <= Z.max 0 (maxMessageLength config))%Z
     ∧ (SQUOTE ∉ m) ∧ (DQUOTE ∉ m) ∧ (LF ∉ m))
  ∧ (maxMessageLength (config_with_max 10)
     < jslength (getFallbackMessage (config_with_max 10) three_changes))%Z.
Proof.
  forget_externals. intros H. split; [|reflexivity].
  exists (cleanMessage config message).
  rewrite generateCommitMessage_unfold.
  rewrite (generate_from_success _ _ _ _ _ _ _ H).
  split; [reflexivity|]. split; [reflexivity|].
  split; [apply cleanMessage_length|].
  repeat split; intros Hin; apply cleanMessage_chars in Hin; tauto.
Qed.


(** ** util/ApiKeyManager.ts: the derived key *)

Lemma systemInfo_never_throws (w : world) : ∃ info, systemInfo w = Ok info.
Proof.
  unfold systemInfo.
  destruct (streq (platform h) (lit "win32")); [cbn; eauto|].
  destruct (streq (platform h) (lit "darwin")).
  { destruct (system_profiler h); cbn; eauto. }
  destruct (streq (platform h) (lit "linux")); [|eauto].
  destruct (existsSync (lit "/etc/machine-id") w); [|cbn; eauto].
  destruct (read_file (fs w) (lit "/etc/machine-id")); cbn; eauto.
Qed.

Lemma or_else_spec (x : option jsstring) (d : jsstring) :
  or_else x d
  = match x with
    | Some s => if bool_decide (s = []) then d else s
    | None => d
    end.
Proof. forget_externals. now destruct x as [[|c s]|]. Qed.

Example or_else_keeps_first_character :
  or_else (Some (lit "pedro")) (lit "user") = lit "pedro"
  ∧ or_else (Some []) (lit "user") = lit "user"
  ∧ or_else None (lit "user") = lit "user".
Proof. forget_externals. repeat split. Qed.

Lemma or_else_USER : or_else (env "USER") (lit "user") = os_user_name.
Proof. apply or_else_spec. Qed.

Lemma systemInfo_darwin_fallback (w : world) (e : error) :
  platform h = lit "darwin" →
  system_profiler h = Throw e →
  systemInfo w = Ok (lit "macos-" ++ os_user_name).
Proof.
  intros Hp He. unfold systemInfo. rewrite Hp, He, or_else_USER. reflexivity.
Qed.

Lemma systemInfo_linux_fallback (w : world) (e : error) :
  platform h = lit "linux" →
  read_file (fs w) (lit "/etc/machine-id") = Throw e →
  systemInfo w = Ok (lit "linux-" ++ os_user_name).
Proof.
  intros Hp He. unfold systemInfo. rewrite Hp, He, or_else_USER.
  change (streq (lit "linux") (lit "win32")) with false.
  change (streq (lit "linux") (lit "darwin")) with false.
  change (streq (lit "linux") (lit "linux")) with true.
  cbv iota. now destruct (existsSync (lit "/etc/machine-id") w).
Qed.

Lemma systemInfo_linux_without_machine_id (w : world) :
  platform h = lit "linux" →
  fs w !! lit "/etc/machine-id" = None →
  systemInfo w = Ok (lit "linux-" ++ os_user_name).
Proof.
  intros Hp Hf. unfold systemInfo, existsSync. rewrite Hp, Hf, or_else_USER.
  change (streq (lit "linux") (lit "win32")) with false.
  change (streq (lit "linux") (lit "darwin")) with false.
  change (streq (lit "linux") (lit "linux")) with true.
  cbv iota. rewrite bool_decide_eq_false_2; [reflexivity|].
  intros [x Hx]. discriminate Hx.
Qed.

Lemma hex_value_ascii (c : N) : is_Some (hex_value c) → (c < 128)%N.
Proof.
  forget_externals. unfold hex_value. intros [v Hv].
  destruct (N.leb_spec 48 c), (N.leb_spec c 57), (N.leb_spec 97 c),
    (N.leb_spec c 102), (N.leb_spec 65 c), (N.leb_spec c 70);
    cbn in Hv; try discriminate; lia.
Qed.


(** ** util/ApiKeyManager.ts: the secret store *)

Lemma hex_digit_not_colon (n : N) : hex_digit n ≠ COLON.
Proof.
  forget_externals. unfold hex_digit, COLON.
  destruct (N.ltb_spec n 10); lia.
Qed.

Lemma toString_hex_no_colon (buf : list Byte.byte) : COLON ∉ toString_hex buf.
Proof.
  forget_externals. induction buf as [|b r IH]; cbn.
  - apply not_elem_of_nil.
  - rewrite !not_elem_of_cons. repeat split; try assumption;
      apply not_eq_sym, hex_digit_not_colon.
Qed.

Lemma toString_hex_nonempty (buf : list Byte.byte) :
  buf ≠ [] → ∃ c r, toString_hex buf = c :: r.
Proof. destruct buf as [|b r]; [congruence|]. cbn. eauto. Qed.

Lemma Buffer_from_hex_byte (b : Byte.byte) (rest : jsstring) :
  Buffer_from_hex (hex_of_byte b ++ rest) = b :: Buffer_from_hex rest.
Proof. destruct b; reflexivity. Qed.

Lemma Buffer_from_hex_toString (buf : list Byte.byte) :
  Buffer_from_hex (toString_hex buf) = buf.
Proof.
  induction buf as [|b r IH]; [reflexivity|].
  change (toString_hex (b :: r)) with (hex_of_byte b ++ toString_hex r).
  now rewrite Buffer_from_hex_byte, IH.
Qed.

Lemma split_without (sep : N) (s : jsstring) : sep ∉ s → split sep s = [s].
Proof.
  forget_externals. induction s as [|c r IH]; [reflexivity|].
  rewrite not_elem_of_cons. intros [Hne Hr]. cbn.
  destruct (N.eqb_spec c sep) as [E|_]; [congruence|].
  now rewrite IH.
Qed.

Lemma split_at_first (sep : N) (a b : jsstring) :
  sep ∉ a → split sep (a ++ sep :: b) = a :: split sep b.
Proof.
  forget_externals. induction a as [|c r IH]; intros Ha; cbn.
  - now rewrite N.eqb_refl.
  - apply not_elem_of_cons in Ha as [Hne Hr].
    destruct (N.eqb_spec c sep) as [E|_]; [congruence|].
    now rewrite IH.
Qed.

Lemma decrypt_record (this : ApiKeyManager) (iv cipher : list Byte.byte) :
  iv ≠ [] → cipher ≠ [] →
  decrypt this (toString_hex iv ++ lit ":" ++ toString_hex cipher)
  = try_result
      (aes_256_cbc_decrypt (encryptionKey this) iv (toString_hex cipher))
      (fun _ => Throw (Error (lit
         "Erro ao descriptografar a API key - pode ter sido corrompida"))).
Proof.
  intros Hiv Hc. unfold decrypt.
  change (lit ":" ++ toString_hex cipher) with (COLON :: toString_hex cipher).
  rewrite split_at_first by apply toString_hex_no_colon.
  rewrite split_without by apply toString_hex_no_colon.
  destruct (toString_hex_nonempty iv Hiv) as (c1 & r1 & E1).
  destruct (toString_hex_nonempty cipher Hc) as (c2 & r2 & E2).
  cbn [lookup list_lookup]. rewrite E1 at 1. rewrite E2 at 1. cbn [falsy orb].
  cbn [default from_option id]. now rewrite Buffer_from_hex_toString.
Qed.

Lemma next_iv_nonempty (w : world) : next_iv w ≠ [].
Proof. unfold next_iv. cbn. discriminate. Qed.

Lemma encrypt_ok (this : ApiKeyManager) (text : jsstring) (w : world)
    (cipher : list Byte.byte) :
  aes_256_cbc_encrypt (encryptionKey this) (next_iv w) text = Ok cipher →
  encrypt this text w
  = (Ok (secret_record (next_iv w) cipher), with_drawn w (drawn w + 16)).
Proof.
  intros H. unfold encrypt, try_catch, bind, randomBytes, lift, ret.
  fold (next_iv w). now rewrite H.
Qed.

Lemma saveApiKey_ok (this : ApiKeyManager) (text : jsstring) (w : world)
    (cipher : list Byte.byte) :
  aes_256_cbc_encrypt (encryptionKey this) (next_iv w) text = Ok cipher →
  fs w !! configPath this ≠ Some Directory →
  ∃ w1, saveApiKey this text w = (Ok tt, w1)
        ∧ fs w1 = <[configPath this := File (secret_record (next_iv w) cipher)]>
                    (fs w).
Proof.
  intros H Hdir. unfold saveApiKey, try_catch, bind.
  rewrite (encrypt_ok _ _ _ _ H). unfold writeFileSync, print. cbn [fs with_drawn].
  destruct (fs w !! configPath this) as [[content|]|] eqn:E;
    try congruence; eexists; split; reflexivity.
Qed.

Lemma loadApiKey_reads (this : ApiKeyManager) (w : world) (text : jsstring) :
  fs w !! configPath this = Some (File text) →
  loadApiKey this w
  = (try_result (decrypt this text)
       (fun error =>
          Throw (Error (lit "Erro ao carregar API key: " ++ message error))),
     w).
Proof.
  intros H. unfold loadApiKey, hasApiKey, existsSync.
  rewrite bool_decide_eq_true_2 by (rewrite H; eauto). cbn [negb].
  unfold try_catch, bind, readFileSync, read_file, lift, throw. rewrite H.
  now destruct (decrypt this text).
Qed.

(** C1. For every secret [s] that the cipher of the library takes back to
    itself (encrypting [s] under the key and the drawn IV gives a
    non-empty ciphertext that decrypts to [s] under the same key and IV):
    [decrypt] of what [encrypt] returns is [s]; and starting from no secret
    file, [exists()] is false and [load()] fails with the not-found error,
    while after [save(s)], [exists()] is true and [load()] returns [s]. *)
Theorem save_then_load_roundtrip (this : ApiKeyManager) (s : jsstring)
    (w : world) (cipher : list Byte.byte) :
  aes_256_cbc_encrypt (encryptionKey this) (next_iv w) s = Ok cipher →
  cipher ≠ [] →
  aes_256_cbc_decrypt (encryptionKey this) (next_iv w) (toString_hex cipher)
  = Ok s →
  fs w !! configPath this = None →
  (∃ encrypted, fst (encrypt this s w) = Ok encrypted
                ∧ decrypt this encrypted = Ok s)
  ∧ hasApiKey this w = false
  ∧ fst (loadApiKey this w)
    = Throw (Error (lit "API key não encontrada. Execute o setup primeiro."))
  ∧ fst (saveApiKey this s w) = Ok tt
  ∧ hasApiKey this (snd (saveApiKey this s w)) = true
  ∧ fst (loadApiKey this (snd (saveApiKey this s w))) = Ok s.
Proof.
  intros Henc Hne Hdec Hnone.
  assert (Hrec : decrypt this (secret_record (next_iv w) cipher) = Ok s).
  { unfold secret_record.
    rewrite decrypt_record by (apply next_iv_nonempty || assumption).
    now rewrite Hdec. }
  assert (Habsent : hasApiKey this w = false).
  { unfold hasApiKey, existsSync. apply bool_decide_eq_false_2.
    rewrite Hnone. intros [x Hx]. discriminate. }
  split.
  { exists (secret_record (next_iv w) cipher).
    now rewrite (encrypt_ok _ _ _ _ Henc). }
  split; [assumption|]. split.
  { unfold loadApiKey. now rewrite Habsent. }
  destruct (saveApiKey_ok this s w cipher Henc) as (w1 & Hsave & Hfs).
  { rewrite Hnone. discriminate. }
  rewrite Hsave. cbn [fst snd].
  assert (Hfile : fs w1 !! configPath this
                  = Some (File (secret_record (next_iv w) cipher))).
  { rewrite Hfs. apply lookup_insert_eq. }
  split; [reflexivity|]. split.
  - unfold hasApiKey, existsSync. apply bool_decide_eq_true_2.
    rewrite Hfile. eauto.
  - rewrite (loadApiKey_reads _ _ _ Hfile). cbn [fst]. now rewrite Hrec.
Qed.


Lemma decrypt_outcome (this : ApiKeyManager) (text : jsstring) :
  (∃ s, decrypt this text = Ok s) ∨ decrypt this text = Throw decryption_error.
Proof.
  unfold decrypt, try_result, decryption_error.
  destruct (falsy (split COLON text !! 0%nat)
            || falsy (split COLON text !! 1%nat)); [right; reflexivity|].
  destruct (aes_256_cbc_decrypt _ _ _); [left; eauto | right; reflexivity].
Qed.

(** C4 (the code at the failing input). A record without a colon makes
    [loadApiKey] fail with the message of a failed decryption; the message
    for a malformed record, thrown inside the [try] of [decrypt], is
    replaced by its [catch] and never leaves [decrypt], whatever the
    record; so whenever the secret file is there, [loadApiKey] either
    returns or fails with that one message. *)
Theorem loadApiKey_malformed_record :
  fst (loadApiKey sample_manager malformed_world)
  = Throw (Error (lit "Erro ao carregar API key: "
                  ++ message decryption_error))
  ∧ (∀ (this : ApiKeyManager) (text : jsstring),
       decrypt this text
       ≠ Throw (Error (lit "Formato de texto criptografado inválido")))
  ∧ (∀ (this : ApiKeyManager) (w : world) (text : jsstring),
       fs w !! configPath this = Some (File text) →
       (∃ s, fst (loadApiKey this w) = Ok s)
       ∨ fst (loadApiKey this w)
         = Throw (Error (lit "Erro ao carregar API key: "
                         ++ message decryption_error))).
Proof.
  split; [vm_compute; reflexivity|]. split.
  - intros this text H.
    destruct (decrypt_outcome this text) as [[s Hs]|Ht];
      rewrite H in Hs || rewrite H in Ht.
    + discriminate.
    + unfold decryption_error in Ht.
      apply (f_equal (fun r => match r with
                               | Throw e => length (message e)
                               | Ok _ => 0%nat
                               end)) in Ht.
      vm_compute in Ht. discriminate.
  - intros this w text Hf. rewrite (loadApiKey_reads this w text Hf).
    cbn [fst]. destruct (decrypt_outcome this text) as [[s Hs]|Ht].
    + left. exists s. rewrite Hs. reflexivity.
    + right. rewrite Ht. reflexivity.
Qed.

(** ** util/managers/CacheController.ts *)

Lemma saveCache_inherited (this : CacheController) (filename : jsstring)
    (data : json) (w : world) :
  schemas this !! filename = None →
  inherited filename = true →
  saveCache this filename data w
  = (Throw (not_a_function "schema.safeParse"), w).
Proof. intros Hs Hi. unfold saveCache. now rewrite Hs, Hi. Qed.

(** C5. For a key with no registered schema, [loadCache] throws, whatever
    the default passed and whatever the disk holds, and leaves the world as
    it was: it never returns a value.  The error is the schema-not-found
    one, thrown before the disk is looked at, unless the key is the name of
    a member of [Object.prototype]; such a key gets past the guard, and the
    load fails further on: with the [TypeError] of [schema.safeParse] when
    a default is passed, else with the not-found or the processing error of
    the cache. *)
Theorem loadCache_unregistered (this : CacheController) (filename : jsstring)
    (defaultValue : option json) (w : world) :
  schemas this !! filename = None →
  ∃ e, loadCache this filename defaultValue w = (Throw e, w)
    ∧ (inherited filename = false →
       e = Error (lit "Schema not found for key: " ++ filename))
    ∧ (inherited filename = true →
       match defaultValue with
       | Some _ => e = not_a_function "schema.safeParse"
       | None =>
         if cacheExists this filename w
         then ∃ cause, e = Error (lit "Error processing cache '" ++ filename
                                  ++ lit "': " ++ cause)
         else e = Error (lit "Cache '" ++ filename
           ++ lit "' not found and no default value was provided or defined in the schema.")
       end).
Proof.
  intros Hs. unfold loadCache. rewrite Hs.
  destruct (inherited filename) eqn:Hi.
  - unfold cacheExists, bind at 1. unfold read.
    destruct (existsSync (cache_file this filename) w).
    + unfold try_catch, bind, readFileSync, lift, throw, ret.
      destruct (read_file (fs w) (cache_file this filename)) as [raw|e0].
      * destruct (JSON_parse raw) as [parsed|e1];
          destruct defaultValue as [d|];
          rewrite ?(saveCache_inherited this filename _ w Hs Hi);
          eexists; (split; [reflexivity|]);
          (split; [intros H; discriminate H|]); intros _; eauto.
      * destruct defaultValue as [d|];
          rewrite ?(saveCache_inherited this filename _ w Hs Hi);
          eexists; (split; [reflexivity|]);
          (split; [intros H; discriminate H|]); intros _; eauto.
    + destruct defaultValue as [d|]; unfold bind, throw;
        rewrite ?(saveCache_inherited this filename _ w Hs Hi);
        eexists; (split; [reflexivity|]);
        (split; [intros H; discriminate H|]); intros _; reflexivity.
  - eexists. split; [reflexivity|]. split; [reflexivity|].
    intros H; discriminate H.
Qed.

Lemma saveCache_writes (this : CacheController) (filename : jsstring)
    (schema : ZodType) (data : json) (w : world) :
  schemas this !! filename = Some schema →
  fs w !! cache_file this filename ≠ Some Directory →
  ∃ w1, saveCache this filename data w = (Ok tt, w1)
    ∧ fs w1 = <[cache_file this filename := File (JSON_stringify data)]> (fs w)
    ∧ console w1
      = console w ++ (if safeParse schema data is None
                      then [validation_warning filename] else []).
Proof.
  intros Hs Hdir. unfold saveCache. rewrite Hs.
  unfold bind, try_catch, writeFileSync.
  destruct (safeParse schema data); cbn [print ret fs with_console].
  - destruct (fs w !! cache_file this filename) as [[c|]|] eqn:E;
      try congruence; eexists; (split; [reflexivity|]); split;
      try reflexivity; cbn; now rewrite app_nil_r.
  - destruct (fs w !! cache_file this filename) as [[c|]|] eqn:E;
      try congruence; eexists; (split; [reflexivity|]); split; reflexivity.
Qed.

Lemma loadCache_invalid_without_default (this : CacheController)
    (filename : jsstring) (schema : ZodType) (text : jsstring) (value : json)
    (w : world) :
  schemas this !! filename = Some schema →
  zod_default schema = None →
  fs w !! cache_file this filename = Some (File text) →
  JSON_parse text = Ok value →
  safeParse schema value = None →
  loadCache this filename None w
  = (Throw (Error (lit "Error processing cache '" ++ filename ++ lit "': "
       ++ lit "Error validating cache '" ++ filename
       ++ lit "' and no default value was provided or defined in the schema.")),
     w).
Proof.
  intros Hs Hd Hf Hp Hv. unfold loadCache. rewrite Hs.
  unfold effective_default. rewrite Hd.
  unfold bind, read, existsSync.
  rewrite bool_decide_eq_true_2 by (rewrite Hf; eauto).
  unfold try_catch, bind, readFileSync, read_file, lift. rewrite Hf, Hp, Hv.
  reflexivity.
Qed.

Lemma loadCache_invalid_with_default (this : CacheController)
    (filename : jsstring) (schema : ZodType) (text : jsstring)
    (value D : json) (w : world) :
  schemas this !! filename = Some schema →
  fs w !! cache_file this filename = Some (File text) →
  JSON_parse text = Ok value →
  safeParse schema value = None →
  ∃ w2, loadCache this filename (Some D) w = (Ok D, w2)
    ∧ fs w2 = <[cache_file this filename := File (JSON_stringify D)]> (fs w).
Proof.
  intros Hs Hf Hp Hv.
  destruct (saveCache_writes this filename schema D w Hs) as (w2 & Hsave & Hfs & _).
  { rewrite Hf. discriminate. }
  exists w2. split; [|assumption].
  unfold loadCache. rewrite Hs. unfold effective_default.
  unfold bind at 1. unfold read, existsSync.
  rewrite bool_decide_eq_true_2 by (rewrite Hf; eauto).
  unfold try_catch. unfold bind at 1. unfold readFileSync, read_file.
  rewrite Hf. unfold bind at 1. unfold lift. rewrite Hp, Hv.
  unfold bind. rewrite Hsave. reflexivity.
Qed.

(** C2. For a registered key and a value that violates its schema:
    [saveCache] of the value prints a warning and still writes the file;
    after that, [loadCache] without a default, the schema having no default
    of its own, throws an error that names the key and the cause and leaves
    the file alone; and [loadCache] with a default [D] returns [D] and
    overwrites the file with [D]. *)
Theorem invalid_value_persists_then_heals (this : CacheController)
    (filename : jsstring) (schema : ZodType) (value D : json) (w : world) :
  schemas this !! filename = Some schema →
  safeParse schema value = None →
  JSON_parse (JSON_stringify value) = Ok value →
  fs w !! cache_file this filename ≠ Some Directory →
  ∃ w1,
    saveCache this filename value w = (Ok tt, w1)
    ∧ console w1 = console w ++ [validation_warning filename]
    ∧ fs w1 !! cache_file this filename = Some (File (JSON_stringify value))
    ∧ (zod_default schema = None →
       loadCache this filename None w1
       = (Throw (Error (lit "Error processing cache '" ++ filename
            ++ lit "': " ++ lit "Error validating cache '" ++ filename
            ++ lit "' and no default value was provided or defined in the schema.")),
          w1))
    ∧ fst (loadCache this filename (Some D) w1) = Ok D
    ∧ fs (snd (loadCache this filename (Some D) w1)) !! cache_file this filename
      = Some (File (JSON_stringify D)).
Proof.
  intros Hs Hv Hp Hdir.
  destruct (saveCache_writes this filename schema value w Hs Hdir)
    as (w1 & Hsave & Hfs & Hcon).
  rewrite Hv in Hcon.
  assert (Hf : fs w1 !! cache_file this filename
               = Some (File (JSON_stringify value))).
  { rewrite Hfs. apply lookup_insert_eq. }
  exists w1. split; [assumption|]. split; [assumption|].
  split; [assumption|]. split.
  { intros Hd.
    exact (loadCache_invalid_without_default
             this filename schema _ value w1 Hs Hd Hf Hp Hv). }
  destruct (loadCache_invalid_with_default
              this filename schema _ value D w1 Hs Hf Hp Hv)
    as (w2 & Hload & Hfs2).
  rewrite Hload. cbn [fst snd]. split; [reflexivity|].
  rewrite Hfs2. apply lookup_insert_eq.
Qed.


Lemma loadCache_unusable_without_default (this : CacheController)
    (filename : jsstring) (schema : ZodType) (text : jsstring) (w : world) :
  schemas this !! filename = Some schema →
  zod_default schema = None →
  fs w !! cache_file this filename = Some (File text) →
  (∀ value, JSON_parse text = Ok value → safeParse schema value = None) →
  ∃ cause,
    loadCache this filename None w
    = (Throw (Error (lit "Error processing cache '" ++ filename ++ lit "': "
                     ++ cause)), w).
Proof.
  intros Hs Hd Hf Hbad. unfold loadCache. rewrite Hs.
  unfold effective_default. rewrite Hd.
  unfold bind, read, existsSync.
  rewrite bool_decide_eq_true_2 by (rewrite Hf; eauto).
  unfold try_catch, bind, readFileSync, read_file, lift. rewrite Hf.
  destruct (JSON_parse text) as [value|e] eqn:Hp.
  - rewrite (Hbad value eq_refl). eexists. reflexivity.
  - eexists. reflexivity.
Qed.

(** ** util/FoxyClient.ts *)

Lemma keeps_ret {A} (path : jsstring) (a : A) : keeps path (ret a).
Proof. now intros w. Qed.

Lemma keeps_throw {A} (path : jsstring) (e : error) :
  keeps path (throw e : M A).
Proof. now intros w. Qed.

Lemma keeps_lift {A} (path : jsstring) (r : result A) : keeps path (lift r).
Proof. now intros w. Qed.

Lemma keeps_read {A} (path : jsstring) (f : world → A) : keeps path (read f).
Proof. now intros w. Qed.

Lemma keeps_print (path : jsstring) (entry : log_entry) :
  keeps path (print entry).
Proof. now intros w. Qed.

Lemma keeps_question (path : jsstring) (query : jsstring) :
  keeps path (question query).
Proof. now intros w. Qed.

Lemma keeps_randomBytes (path : jsstring) (size : nat) :
  keeps path (randomBytes size).
Proof. now intros w. Qed.

Lemma keeps_readFileSync (path file : jsstring) : keeps path (readFileSync file).
Proof. now intros w. Qed.

Lemma keeps_bind {A B} (path : jsstring) (m : M A) (k : A → M B) :
  keeps path m → (∀ a, keeps path (k a)) → keeps path (bind m k).
Proof.
  intros Hm Hk w. unfold bind. specialize (Hm w).
  destruct (m w) as [[a|e] w1]; cbn [snd] in *; [|assumption].
  now rewrite (Hk a w1).
Qed.

Lemma keeps_try_catch {A} (path : jsstring) (m : M A) (handler : error → M A) :
  keeps path m → (∀ e, keeps path (handler e)) →
  keeps path (try_catch m handler).
Proof.
  intros Hm Hh w. unfold try_catch. specialize (Hm w).
  destruct (m w) as [[a|e] w1]; cbn [snd] in *; [assumption|].
  now rewrite (Hh e w1).
Qed.

Lemma keeps_if {A} (path : jsstring) (b : bool) (m1 m2 : M A) :
  keeps path m1 → keeps path m2 → keeps path (if b then m1 else m2).
Proof. now destruct b. Qed.

Lemma keeps_writeFileSync (path file data : jsstring) :
  file ≠ path → keeps path (writeFileSync file data).
Proof.
  intros Hne w. unfold writeFileSync.
  destruct (fs w !! file) as [[c|]|]; cbn [snd fs with_fs];
    try reflexivity; now rewrite lookup_insert_ne.
Qed.

Create HintDb keeps.
#[local] Hint Resolve keeps_ret keeps_throw keeps_lift keeps_read keeps_print
  keeps_question keeps_randomBytes keeps_readFileSync keeps_writeFileSync
  : keeps.
#[local] Hint Extern 2 (keeps _ (bind _ _)) =>
  apply keeps_bind; [|intros ?] : keeps.
#[local] Hint Extern 2 (keeps _ (try_catch _ _)) =>
  apply keeps_try_catch; [|intros ?] : keeps.
#[local] Hint Extern 2 (keeps _ (if _ then _ else _)) =>
  apply keeps_if : keeps.

Lemma keeps_saveApiKey (path : jsstring) (this : ApiKeyManager)
    (apiKey : jsstring) :
  configPath this ≠ path → keeps path (saveApiKey this apiKey).
Proof. intros Hne. unfold saveApiKey, encrypt. auto 12 with keeps. Qed.

Lemma keeps_loadApiKey (path : jsstring) (this : ApiKeyManager) :
  keeps path (loadApiKey this).
Proof.
  intros w. unfold loadApiKey.
  destruct (negb (hasApiKey this w)); [reflexivity|].
  revert w. change (keeps path
    (try_catch
       (bind (readFileSync (configPath this))
             (fun encrypted => lift (decrypt this encrypted)))
       (fun error =>
          throw (Error (lit "Erro ao carregar API key: " ++ message error))))).
  auto 8 with keeps.
Qed.

Lemma keeps_promptForApiKey (path : jsstring) (this : ApiKeyManager) :
  keeps path promptForApiKey.
Proof. unfold promptForApiKey. auto 20 with keeps. Qed.


Lemma keeps_setupApiKey (path : jsstring) (this : ApiKeyManager) :
  configPath this ≠ path → keeps path (setupApiKey this).
Proof.
  intros Hne. unfold setupApiKey.
  apply keeps_bind; [apply keeps_promptForApiKey; exact this|intros apiKey].
  apply keeps_bind; [now apply keeps_saveApiKey|intros _].
  apply keeps_ret.
Qed.

Lemma keeps_ensureInitialized (path : jsstring) (this : FoxyClient) :
  configPath (apiKeyManager this) ≠ path →
  keeps path (ensureInitialized this).
Proof.
  intros Hne w. unfold ensureInitialized.
  destruct (isInitialized w && bool_decide (is_Some (GGProfile w)));
    [reflexivity|].
  revert w. apply keeps_bind; [|intros apiKey w; reflexivity].
  apply keeps_bind; [apply keeps_read|intros exist].
  apply keeps_if; [|now apply keeps_setupApiKey].
  apply keeps_try_catch; [apply keeps_loadApiKey|intros e].
  apply keeps_bind; [apply keeps_print|intros _].
  apply keeps_bind; [apply keeps_print|intros _].
  now apply keeps_setupApiKey.
Qed.

Lemma ensureInitialized_profile (this : FoxyClient) (w w1 : world) :
  ensureInitialized this w = (Ok tt, w1) → is_Some (GGProfile w1).
Proof.
  unfold ensureInitialized.
  destruct (isInitialized w && bool_decide (is_Some (GGProfile w))) eqn:E.
  - intros [= <-]. apply andb_prop in E as [_ E].
    now apply bool_decide_eq_true_1 in E.
  - unfold bind at 1.
    match goal with |- context [match ?m w with _ => _ end] =>
      destruct (m w) as [[apiKey|e] w'] end.
    + intros [= <-]. cbn. eauto.
    + discriminate.
Qed.

(** C9. If the settings cache file exists and its content is not valid
    JSON, or is JSON that violates the settings schema, [responder] throws
    and the file stays as it is: no default is substituted.  Once the
    client is initialised, the error is the one [loadCache] raises for a
    cache it cannot process, [loadCache] being called without a default for
    a schema that declares none. *)
Theorem responder_does_not_heal (this : FoxyClient) (text : jsstring)
    (w : world) (content : jsstring) :
  schemas (CacheManager this) !! lit "settings" = Some SettingsSchema →
  configPath (apiKeyManager this) ≠ settings_file this →
  fs w !! settings_file this = Some (File content) →
  (∀ value, JSON_parse content = Ok value →
            safeParse SettingsSchema value = None) →
  zod_default SettingsSchema = None
  ∧ ∃ e w',
      responder this text w = (Throw e, w')
      ∧ fs w' !! settings_file this = Some (File content)
      ∧ (∀ w1, ensureInitialized this w = (Ok tt, w1) →
               w' = w1
               ∧ ∃ cause,
                   e = Error (lit "Error processing cache 'settings': "
                              ++ cause)).
Proof.
  intros Hs Hne Hf Hbad. split; [reflexivity|].
  pose proof (keeps_ensureInitialized _ this Hne w) as Hkeep.
  unfold responder. unfold bind at 1.
  destruct (ensureInitialized this w) as [[[]|e] w1] eqn:Hinit;
    cbn [snd] in Hkeep.
  - assert (Hf1 : fs w1 !! settings_file this = Some (File content))
      by now rewrite Hkeep.
    destruct (ensureInitialized_profile this w w1 Hinit) as [profile Hprof].
    unfold bind at 1. unfold read at 1. rewrite Hprof.
    unfold bind at 1. unfold read at 1.
    unfold hasExistingCache, existsSync. fold (settings_file this).
    rewrite bool_decide_eq_true_2 by (rewrite Hf1; eauto).
    cbn [negb]. unfold bind at 1. unfold ret at 1. unfold bind at 1.
    destruct (loadCache_unusable_without_default (CacheManager this)
                (lit "settings") SettingsSchema content w1 Hs eq_refl Hf1 Hbad)
      as [cause Hload].
    rewrite Hload.
    eexists _, w1. split; [reflexivity|]. split; [assumption|].
    intros w2 [= <-]. split; [reflexivity|].
    exists cause. reflexivity.
  - exists e, w1. split; [reflexivity|]. split; [now rewrite Hkeep|].
    intros w2 [=].
Qed.


(** ** util/config/FoxyConfig.ts *)

Lemma digits_are_digits (d : Decimal.uint) :
  Forall (fun c => (48 <= c <= 57)%N) (digits d).
Proof.
  forget_externals.
  induction d; cbn; constructor; try assumption; lia.
Qed.

Lemma index_key_not_git (i : nat) : String_of_nat i ≠ lit "git".
Proof.
  forget_externals. intros H.
  pose proof (digits_are_digits (Nat.to_uint i)) as Hd.
  unfold String_of_nat in H. rewrite H in Hd.
  change (lit "git") with [103%N; 105%N; 116%N] in Hd.
  apply Forall_cons_1 in Hd as [Hg _]. lia.
Qed.

Lemma indexed_props_no_git {A} (f : A → json) (items : list A) :
  (list_to_map (imap (fun i x => (String_of_nat i, f x)) items)
     : gmap jsstring json) !! lit "git" = None.
Proof.
  forget_externals. apply not_elem_of_list_to_map_1.
  rewrite list_elem_of_fmap. intros ([k v] & Hk & Hin).
  apply elem_of_lookup_imap_1 in Hin as (i & x & [= -> ->] & _).
  cbn in Hk. symmetry in Hk. now apply index_key_not_git in Hk.
Qed.

Lemma merge_nothing_over_defaults :
  JObj (∅ ∪ own_props (FoxyConfig_object DEFAULT_CONFIG))
  = FoxyConfig_object DEFAULT_CONFIG.
Proof. now rewrite (left_id_L ∅ (∪)). Qed.

Lemma loadConfig_present (this : FoxyConfigManager) (w : world) (n : node) :
  fs w !! foxycfg this = Some n →
  match bind_result (read_file (fs w) (foxycfg this)) JSON_parse with
  | Throw _ =>
    loadConfig this w
    = (Ok (FoxyConfig_object DEFAULT_CONFIG),
       with_console w (console w ++ [config_warning]))
  | Ok userConfig =>
    fst (loadConfig this w) = Ok (merge_over_defaults userConfig)
  end.
Proof.
  intros Hf.
  assert (Hrun : loadConfig this w
    = try_catch
        (configContent <- readFileSync (foxycfg this);;
         userConfig <- lift (JSON_parse configContent);;
         let mergedConfig :=
           spread2 (FoxyConfig_object DEFAULT_CONFIG) userConfig in
         userGit <- lift (get_prop userConfig "git");;
         if truthy userGit then
           ret (JObj (<[lit "git" :=
                         JObj (spread2 (GitConfig_object (git DEFAULT_CONFIG))
                                       (default JNull userGit))]>
                      mergedConfig))
         else ret (JObj mergedConfig))
        (fun _ => print config_warning;;;
                  ret (FoxyConfig_object DEFAULT_CONFIG)) w).
  { unfold loadConfig. unfold bind at 1. unfold read, existsSync.
    now rewrite bool_decide_eq_true_2 by (rewrite Hf; eauto). }
  rewrite Hrun. clear Hrun.
  unfold try_catch, bind, readFileSync, lift, ret, print.
  destruct (read_file (fs w) (foxycfg this)) as [content|e]; cbn [bind_result];
    [|reflexivity].
  destruct (JSON_parse content) as [userConfig|e]; [|reflexivity].
  unfold merge_over_defaults, spread2.
  destruct userConfig as [|b|n'|s|items|props];
    unfold get_prop; cbn [truthy fst own_props].
  - now rewrite merge_nothing_over_defaults.
  - now rewrite lookup_empty.
  - now rewrite lookup_empty.
  - now rewrite (indexed_props_no_git (fun c => JStr [c])).
  - now rewrite (indexed_props_no_git (fun x => x)).
  - destruct (props !! lit "git") as [userGit|]; [|reflexivity].
    cbn [default from_option id].
    destruct userGit as [|b|z|s|l|m]; cbn [truthy]; try reflexivity.
    + now destruct b.
    + now destruct (negb (z =? 0)%Z).
    + now destruct (negb (bool_decide (s = []))).
Qed.

Lemma loadConfig_absent (this : FoxyConfigManager) (w : world) :
  fs w !! foxycfg this = None →
  loadConfig this w = (Ok (FoxyConfig_object DEFAULT_CONFIG), w).
Proof.
  intros Hf. unfold loadConfig. unfold bind at 1. unfold read, existsSync.
  rewrite bool_decide_eq_false_2; [reflexivity|].
  rewrite Hf. intros [x Hx]. discriminate.
Qed.



(* ===================================================================== *)
(** * Further properties of the code *)
(* ===================================================================== *)

(** Literals stay folded in the proofs below. *)
#[local] Opaque lit.

(** Projections of a world that was updated field by field. *)
Ltac simpl_world :=
  cbn [fs with_fs with_console with_answered with_drawn with_client
       answered console drawn GGProfile isInitialized fst snd].

(** ** util/ApiKeyManager.ts: the operator's prompt *)

Lemma promptForApiKey_run (w : world) :
  let apiKey := operator (answered w) in
  let confirm := toLowerCase (operator (S (answered w))) in
  ∃ w', promptForApiKey w
        = (if falsy (Some apiKey) || bool_decide (length (trim apiKey) = 0%nat)
           then Throw (Error (lit "API key não pode estar vazia"))
           else if startsWith (trim apiKey) (lit "AIza") then Ok (trim apiKey)
           else if negb (streq confirm (lit "y"))
                   && negb (streq confirm (lit "yes"))
           then Throw (Error (lit "Configuração cancelada pelo usuário"))
           else Ok (trim apiKey),
           w')
    ∧ fs w' = fs w ∧ drawn w' = drawn w
    ∧ GGProfile w' = GGProfile w ∧ isInitialized w' = isInitialized w
    ∧ answered w'
      = (if falsy (Some apiKey) || bool_decide (length (trim apiKey) = 0%nat)
         then S (answered w)
         else if startsWith (trim apiKey) (lit "AIza") then S (answered w)
         else S (S (answered w))).
Proof.
  intros apiKey confirm.
  unfold promptForApiKey, bind, print, question, throw, ret.
  simpl_world. fold apiKey.
  destruct (falsy (Some apiKey) || bool_decide (length (trim apiKey) = 0%nat)).
  { eexists. split; [reflexivity|]. simpl_world. auto. }
  destruct (startsWith (trim apiKey) (lit "AIza")); cbn [negb].
  { eexists. split; [reflexivity|]. simpl_world. auto. }
  simpl_world. fold confirm.
  destruct (negb (streq confirm (lit "y")) && negb (streq confirm (lit "yes")));
    eexists; (split; [reflexivity|]); simpl_world; auto.
Qed.

(** X1. A key that [promptForApiKey] returns is the first answer of the
    operator, trimmed; it is not empty; and either it starts with [AIza] or
    the operator confirmed with [y] or [yes] (in any case of letters).  The
    prompt leaves the disk alone. *)
Theorem promptForApiKey_returns_confirmed_key (w w' : world) (k : jsstring) :
  promptForApiKey w = (Ok k, w') →
  k = trim (operator (answered w))
  ∧ k ≠ []
  ∧ fs w' = fs w
  ∧ (startsWith k (lit "AIza") = true
     ∨ toLowerCase (operator (S (answered w))) = lit "y"
     ∨ toLowerCase (operator (S (answered w))) = lit "yes").
Proof.
  intros Hrun. destruct (promptForApiKey_run w) as (w1 & Hw1 & Hfs & _).
  cbv zeta in Hw1. rewrite Hrun in Hw1.
  destruct (falsy (Some (operator (answered w)))
            || bool_decide (length (trim (operator (answered w))) = 0%nat))
    eqn:Hblank; [discriminate|].
  apply orb_false_elim in Hblank as [_ Hlen].
  apply bool_decide_eq_false_1 in Hlen.
  assert (Hne : trim (operator (answered w)) ≠ []).
  { intros E. apply Hlen. now rewrite E. }
  destruct (startsWith (trim (operator (answered w))) (lit "AIza")) eqn:Hpre.
  { injection Hw1 as -> ->. auto. }
  destruct (negb (streq (toLowerCase (operator (S (answered w)))) (lit "y"))
            && negb (streq (toLowerCase (operator (S (answered w))))
                           (lit "yes"))) eqn:Hconf; [discriminate|].
  injection Hw1 as -> ->. repeat split; try assumption.
  right. apply andb_false_iff in Hconf as [Hy|Hyes].
  - left. apply negb_false_iff in Hy. now apply bool_decide_eq_true_1 in Hy.
  - right. apply negb_false_iff in Hyes.
    now apply bool_decide_eq_true_1 in Hyes.
Qed.

(** X2. When the first answer is empty or only white space,
    [promptForApiKey] throws the empty-key error after that one question,
    and the disk is as before. *)
Theorem promptForApiKey_blank (w : world) :
  trim (operator (answered w)) = [] →
  ∃ w', promptForApiKey w
        = (Throw (Error (lit "API key não pode estar vazia")), w')
    ∧ fs w' = fs w
    ∧ answered w' = S (answered w).
Proof.
  intros Hblank. destruct (promptForApiKey_run w) as (w1 & Hw1 & Hfs & _ & _ & _ & Hans).
  cbv zeta in Hw1, Hans. rewrite Hblank in Hw1, Hans.
  rewrite orb_true_r in Hw1, Hans. eauto.
Qed.

(** X3. When the first answer does not start with [AIza] and the second
    answer, in lower case, is neither [y] nor [yes], [promptForApiKey]
    throws the cancellation error and the disk is as before. *)
Theorem promptForApiKey_declined (w : world) :
  trim (operator (answered w)) ≠ [] →
  startsWith (trim (operator (answered w))) (lit "AIza") = false →
  toLowerCase (operator (S (answered w))) ≠ lit "y" →
  toLowerCase (operator (S (answered w))) ≠ lit "yes" →
  ∃ w', promptForApiKey w
        = (Throw (Error (lit "Configuração cancelada pelo usuário")), w')
    ∧ fs w' = fs w.
Proof.
  intros Hne Hpre Hy Hyes.
  destruct (promptForApiKey_run w) as (w1 & Hw1 & Hfs & _).
  cbv zeta in Hw1. rewrite Hpre in Hw1.
  assert (Hfalsy : falsy (Some (operator (answered w))) = false).
  { destruct (operator (answered w)); [now contradict Hne|reflexivity]. }
  rewrite Hfalsy in Hw1.
  rewrite bool_decide_eq_false_2 in Hw1
    by (intros E; apply Hne; now apply nil_length_inv).
  unfold streq in Hw1. rewrite !bool_decide_eq_false_2 in Hw1 by assumption.
  eauto.
Qed.

(** ** util/ApiKeyManager.ts: saving, setting up and deleting *)

(** X4. A setup that goes through leaves a secret file from which
    [loadApiKey] reads back the very key the setup returned (the cipher of
    the library taking that key back to itself). *)
Theorem setupApiKey_then_load (this : ApiKeyManager) (w w1 : world)
    (k : jsstring) (cipher : list Byte.byte) :
  promptForApiKey w = (Ok k, w1) →
  aes_256_cbc_encrypt (encryptionKey this) (next_iv w1) k = Ok cipher →
  cipher ≠ [] →
  aes_256_cbc_decrypt (encryptionKey this) (next_iv w1) (toString_hex cipher)
  = Ok k →
  fs w1 !! configPath this ≠ Some Directory →
  ∃ w2, setupApiKey this w = (Ok k, w2)
    ∧ hasApiKey this w2 = true
    ∧ fst (loadApiKey this w2) = Ok k.
Proof.
  intros Hprompt Henc Hne Hdec Hdir.
  destruct (saveApiKey_ok this k w1 cipher Henc Hdir) as (w2 & Hsave & Hfs).
  assert (Hfile : fs w2 !! configPath this
                  = Some (File (secret_record (next_iv w1) cipher))).
  { rewrite Hfs. apply lookup_insert_eq. }
  exists w2. split.
  { unfold setupApiKey, bind. rewrite Hprompt, Hsave. reflexivity. }
  split.
  - unfold hasApiKey, existsSync. apply bool_decide_eq_true_2.
    rewrite Hfile. eauto.
  - rewrite (loadApiKey_reads _ _ _ Hfile). cbn [fst].
    unfold secret_record.
    rewrite decrypt_record by (apply next_iv_nonempty || assumption).
    now rewrite Hdec.
Qed.


Lemma deleteApiKey_run (this : ApiKeyManager) (w : world) :
  deleteApiKey this w
  = (Ok tt,
     if hasApiKey this w
     then with_console w
            (console w
             ++ [console_error (lit "❌ | Erro ao remover API key: "
                                ++ message require_error)])
     else w).
Proof.
  unfold deleteApiKey, hasApiKey.
  destruct (existsSync (configPath this) w); reflexivity.
Qed.

Lemma loadApiKey_reads_disk_only (this : ApiKeyManager) (w w' : world) :
  fs w' = fs w →
  fst (loadApiKey this w') = fst (loadApiKey this w).
Proof.
  intros Hfs.
  unfold loadApiKey, hasApiKey, existsSync, try_catch, bind, readFileSync,
    lift, throw.
  rewrite Hfs.
  destruct (bool_decide (is_Some (fs w !! configPath this))); cbn [negb];
    [|reflexivity].
  destruct (read_file (fs w) (configPath this)) as [text|e]; [|reflexivity].
  destruct (decrypt this text); reflexivity.
Qed.

(** X6. [deleteApiKey] never throws, and it removes nothing: the
    [require] it starts with does not exist in an ES module, so the call
    throws before [unlinkSync] is reached and the catch only prints the
    error.  The disk is as before: a secret that was there is still there,
    and [loadApiKey] gives afterwards what it gave before. *)
Theorem deleteApiKey_removes_nothing (this : ApiKeyManager) (w : world) :
  fst (deleteApiKey this w) = Ok tt
  ∧ fs (snd (deleteApiKey this w)) = fs w
  ∧ hasApiKey this (snd (deleteApiKey this w)) = hasApiKey this w
  ∧ fst (loadApiKey this (snd (deleteApiKey this w)))
    = fst (loadApiKey this w)
  ∧ console (snd (deleteApiKey this w))
    = console w
      ++ (if hasApiKey this w
          then [console_error (lit "❌ | Erro ao remover API key: "
                               ++ message require_error)]
          else []).
Proof.
  rewrite deleteApiKey_run. cbn [fst snd].
  assert (Hfs : fs (if hasApiKey this w
                    then with_console w
                           (console w
                            ++ [console_error
                                  (lit "❌ | Erro ao remover API key: "
                                   ++ message require_error)])
                    else w)
                = fs w)
    by now destruct (hasApiKey this w).
  split; [reflexivity|]. split; [exact Hfs|]. split.
  { unfold hasApiKey at 1 3. unfold existsSync. now rewrite Hfs. }
  split; [now apply loadApiKey_reads_disk_only|].
  destruct (hasApiKey this w); simpl_world; [reflexivity|].
  now rewrite app_nil_r.
Qed.

(** ** util/managers/CacheController.ts: loading, creating and clearing *)

Lemma cacheExists_true (this : CacheController) (filename : jsstring)
    (w : world) (n : node) :
  fs w !! cache_file this filename = Some n → cacheExists this filename w = true.
Proof.
  intros H. unfold cacheExists, existsSync. apply bool_decide_eq_true_2.
  rewrite H. eauto.
Qed.

(** X7. [loadCache] of a registered key that has no file yet, with a
    default (the one passed or, failing that, the one of a [ZodDefault]
    schema): it returns the default and persists it, so that the cache
    exists afterwards. *)
Theorem loadCache_seeds_default (this : CacheController) (filename : jsstring)
    (schema : ZodType) (defaultValue : option json) (D : json) (w : world) :
  schemas this !! filename = Some schema →
  fs w !! cache_file this filename = None →
  effective_default schema defaultValue = Some D →
  ∃ w1, loadCache this filename defaultValue w = (Ok D, w1)
    ∧ cacheExists this filename w1 = true
    ∧ fs w1 !! cache_file this filename = Some (File (JSON_stringify D)).
Proof.
  intros Hs Hf Hd.
  destruct (saveCache_writes this filename schema D w Hs)
    as (w1 & Hsave & Hfs & _).
  { rewrite Hf. discriminate. }
  assert (Hfile : fs w1 !! cache_file this filename
                  = Some (File (JSON_stringify D))).
  { rewrite Hfs. apply lookup_insert_eq. }
  exists w1. split; [|split; [now apply (cacheExists_true _ _ _ _ Hfile)
                             |assumption]].
  unfold loadCache. rewrite Hs, Hd. unfold bind at 1. unfold read, existsSync.
  rewrite bool_decide_eq_false_2
    by (rewrite Hf; intros [x Hx]; discriminate).
  unfold bind. rewrite Hsave. reflexivity.
Qed.

Lemma loadCache_reads_valid (this : CacheController)
    (filename : jsstring) (schema : ZodType) (defaultValue : option json)
    (text : jsstring) (value data : json) (w : world) :
  schemas this !! filename = Some schema →
  fs w !! cache_file this filename = Some (File text) →
  JSON_parse text = Ok value →
  safeParse schema value = Some data →
  loadCache this filename defaultValue w = (Ok data, w).
Proof.
  intros Hs Hf Hp Hv. unfold loadCache. rewrite Hs.
  unfold bind at 1. unfold read, existsSync.
  rewrite bool_decide_eq_true_2 by (rewrite Hf; eauto).
  unfold try_catch, bind, readFileSync, read_file, lift, ret.
  now rewrite Hf, Hp, Hv.
Qed.

(** X8. [loadCache] of a file whose content parses and validates returns
    the data the schema parsed, whatever default is passed, and changes
    nothing: no write, no warning. *)
Theorem loadCache_valid_is_readonly (this : CacheController)
    (filename : jsstring) (schema : ZodType) (defaultValue : option json)
    (text : jsstring) (value data : json) (w : world) :
  schemas this !! filename = Some schema →
  fs w !! cache_file this filename = Some (File text) →
  JSON_parse text = Ok value →
  safeParse schema value = Some data →
  fst (loadCache this filename defaultValue w) = Ok data
  ∧ snd (loadCache this filename defaultValue w) = w.
Proof.
  intros Hs Hf Hp Hv.
  now rewrite (loadCache_reads_valid this filename schema defaultValue
                 text value data w Hs Hf Hp Hv).
Qed.

(** X9. [createCache] with a value that validates, then [loadCache]
    without a default: the creation returns the value as passed and prints
    no warning, the load returns the data the schema parses from it
    ([JSON.parse] undoing [JSON.stringify] at that value), whatever the
    cache held before. *)
Theorem createCache_then_load (this : CacheController) (filename : jsstring)
    (schema : ZodType) (D data : json) (w : world) :
  schemas this !! filename = Some schema →
  safeParse schema D = Some data →
  JSON_parse (JSON_stringify D) = Ok D →
  fs w !! cache_file this filename ≠ Some Directory →
  ∃ w1, createCache this filename (Some D) w = (Ok D, w1)
    ∧ console w1 = console w
    ∧ loadCache this filename None w1 = (Ok data, w1).
Proof.
  intros Hs Hv Hp Hdir.
  destruct (saveCache_writes this filename schema D w Hs Hdir)
    as (w1 & Hsave & Hfs & Hcon).
  rewrite Hv, app_nil_r in Hcon.
  exists w1. split.
  { unfold createCache. rewrite Hs. unfold effective_default, bind.
    now rewrite Hsave. }
  split; [assumption|].
  apply (loadCache_reads_valid this filename schema None
           (JSON_stringify D) D data w1 Hs); try assumption.
  rewrite Hfs. apply lookup_insert_eq.
Qed.

(** X10. Whatever the disk holds and whatever default is passed, a value
    that [loadCache] returns is either the effective default or the data
    the schema parsed from the content of the file: content that fails
    validation is never returned as it is. *)
Theorem loadCache_returns_default_or_valid (this : CacheController)
    (filename : jsstring) (schema : ZodType) (defaultValue : option json)
    (w w' : world) (v : json) :
  schemas this !! filename = Some schema →
  loadCache this filename defaultValue w = (Ok v, w') →
  effective_default schema defaultValue = Some v
  ∨ ∃ text raw, fs w !! cache_file this filename = Some (File text)
                ∧ JSON_parse text = Ok raw
                ∧ safeParse schema raw = Some v.
Proof.
  intros Hs. unfold loadCache. rewrite Hs.
  unfold bind at 1. unfold read.
  destruct (existsSync (cache_file this filename) w) eqn:Hex.
  - unfold try_catch. unfold bind at 1. unfold readFileSync, read_file.
    destruct (fs w !! cache_file this filename) as [[text|]|] eqn:Hf.
    + unfold bind at 1. unfold lift.
      destruct (JSON_parse text) as [raw|e] eqn:Hp.
      * destruct (safeParse schema raw) as [data|] eqn:Hv.
        { unfold ret. intros H. injection H as <- <-. right. eauto. }
        destruct (effective_default schema defaultValue) as [d|].
        { unfold bind, ret.
          destruct (saveCache this filename d w) as [[[]|e] w1].
          - intros H. injection H as <- <-. now left.
          - destruct (saveCache this filename d w1) as [[[]|e'] w2];
              intros H; [injection H as <- <-; now left | discriminate H]. }
        unfold throw. intros H. discriminate H.
      * destruct (effective_default schema defaultValue) as [d|].
        { unfold bind, ret.
          destruct (saveCache this filename d w) as [[[]|e'] w1];
            intros H; [injection H as <- <-; now left | discriminate H]. }
        unfold throw. intros H. discriminate H.
    + destruct (effective_default schema defaultValue) as [d|].
      { unfold bind, ret.
        destruct (saveCache this filename d w) as [[[]|e'] w1];
          intros H; [injection H as <- <-; now left | discriminate H]. }
      unfold throw. intros H. discriminate H.
    + destruct (effective_default schema defaultValue) as [d|].
      { unfold bind, ret.
        destruct (saveCache this filename d w) as [[[]|e'] w1];
          intros H; [injection H as <- <-; now left | discriminate H]. }
      unfold throw. intros H. discriminate H.
  - destruct (effective_default schema defaultValue) as [d|].
    { unfold bind, ret.
      destruct (saveCache this filename d w) as [[[]|e'] w1];
        intros H; [injection H as <- <-; now left | discriminate H]. }
    unfold throw. intros H. discriminate H.
Qed.

(** X11. [loadCache] of a file that is not JSON, with a default: the
    syntax error is swallowed, the default is returned and written over the
    file. *)
Theorem loadCache_heals_unparsable (this : CacheController)
    (filename : jsstring) (schema : ZodType) (defaultValue : option json)
    (D : json) (text : jsstring) (e : error) (w : world) :
  schemas this !! filename = Some schema →
  fs w !! cache_file this filename = Some (File text) →
  JSON_parse text = Throw e →
  effective_default schema defaultValue = Some D →
  ∃ w1, loadCache this filename defaultValue w = (Ok D, w1)
    ∧ fs w1 = <[cache_file this filename := File (JSON_stringify D)]> (fs w).
Proof.
  intros Hs Hf Hp Hd.
  destruct (saveCache_writes this filename schema D w Hs)
    as (w1 & Hsave & Hfs & _).
  { rewrite Hf. discriminate. }
  exists w1. split; [|assumption].
  unfold loadCache. rewrite Hs, Hd. unfold bind at 1. unfold read, existsSync.
  rewrite bool_decide_eq_true_2 by (rewrite Hf; eauto).
  unfold try_catch. unfold bind at 1. unfold readFileSync, read_file.
  rewrite Hf. unfold bind at 1. unfold lift. rewrite Hp.
  unfold bind. rewrite Hsave. reflexivity.
Qed.

(** X12. Where the cache file can be neither read nor written (the path
    holds a directory), a default does not save the load: [loadCache]
    throws the save error, and the disk is as before. *)
Theorem loadCache_unwritable_fails (this : CacheController)
    (filename : jsstring) (schema : ZodType) (defaultValue : option json)
    (D : json) (w : world) :
  schemas this !! filename = Some schema →
  fs w !! cache_file this filename = Some Directory →
  effective_default schema defaultValue = Some D →
  ∃ w1, loadCache this filename defaultValue w
        = (Throw (Error (lit "Failed to save cache '" ++ filename
                         ++ lit "': " ++ message EISDIR)), w1)
    ∧ fs w1 = fs w.
Proof.
  intros Hs Hf Hd.
  assert (Hsave : ∃ w1, saveCache this filename D w
            = (Throw (Error (lit "Failed to save cache '" ++ filename
                             ++ lit "': " ++ message EISDIR)), w1)
            ∧ fs w1 = fs w).
  { unfold saveCache. rewrite Hs. unfold bind, try_catch, writeFileSync, throw.
    destruct (safeParse schema D); unfold print, ret; simpl_world;
      rewrite Hf; eexists; split; reflexivity. }
  destruct Hsave as (w1 & Hsave & Hfs).
  exists w1. split; [|assumption].
  unfold loadCache. rewrite Hs, Hd. unfold bind at 1. unfold read, existsSync.
  rewrite bool_decide_eq_true_2 by (rewrite Hf; eauto).
  unfold try_catch. unfold bind at 1. unfold readFileSync, read_file.
  rewrite Hf. unfold bind. rewrite Hsave. reflexivity.
Qed.

(** X13. [clearCache] never throws; a cache that is a file is gone
    afterwards; and every other path of the disk holds what it held, so
    the cache of a key is kept whenever its file is another one than the
    file of the key cleared (two keys can name one file, since [resolve]
    normalises the path). *)
Theorem clearCache_removes_one (this : CacheController) (filename : jsstring)
    (w : world) :
  fst (clearCache this filename w) = Ok tt
  ∧ (∀ text, fs w !! cache_file this filename = Some (File text) →
             cacheExists this filename (snd (clearCache this filename w))
             = false)
  ∧ (∀ path, path ≠ cache_file this filename →
             fs (snd (clearCache this filename w)) !! path = fs w !! path).
Proof.
  unfold clearCache. unfold bind, read, existsSync, try_catch, unlinkSync, ret.
  destruct (fs w !! cache_file this filename) as [[text|]|] eqn:Hf.
  - rewrite bool_decide_eq_true_2 by eauto. simpl_world. rewrite Hf.
    simpl_world. split; [reflexivity|]. split.
    + intros _ _. unfold cacheExists, existsSync.
      apply bool_decide_eq_false_2. simpl_world. rewrite lookup_delete_eq.
      intros [x Hx]. discriminate.
    + intros path Hp. now rewrite lookup_delete_ne by congruence.
  - rewrite bool_decide_eq_true_2 by eauto. simpl_world. rewrite Hf.
    simpl_world. split; [reflexivity|].
    split; [intros text H; discriminate H|].
    reflexivity.
  - rewrite bool_decide_eq_false_2 by (intros [x Hx]; discriminate).
    simpl_world. split; [reflexivity|].
    split; [intros text H; discriminate H|]. reflexivity.
Qed.

(** ** util/config/FoxyConfig.ts: loading, saving and initialising *)

Lemma loadConfig_shape (this : FoxyConfigManager) (w : world) :
  ∃ userConfig,
    fst (loadConfig this w) = Ok (merge_over_defaults userConfig).
Proof.
  destruct (fs w !! foxycfg this) as [n|] eqn:Hf.
  - pose proof (loadConfig_present this w n Hf) as H.
    destruct (bind_result (read_file (fs w) (foxycfg this)) JSON_parse)
      as [userConfig|e].
    + eauto.
    + exists JNull. rewrite H. cbn [fst].
      unfold merge_over_defaults. cbn [own_props]. rewrite lookup_empty.
      now rewrite merge_nothing_over_defaults.
  - exists JNull. rewrite (loadConfig_absent this w Hf). cbn [fst].
    unfold merge_over_defaults. cbn [own_props]. rewrite lookup_empty.
    now rewrite merge_nothing_over_defaults.
Qed.

Lemma loadConfig_keeps_disk (this : FoxyConfigManager) (w : world) :
  fs (snd (loadConfig this w)) = fs w.
Proof.
  unfold loadConfig, bind, read, try_catch, readFileSync, lift, ret, print.
  destruct (existsSync (foxycfg this) w); cbn [negb]; [|reflexivity].
  destruct (read_file (fs w) (foxycfg this)) as [text|e]; [|reflexivity].
  destruct (JSON_parse text) as [userConfig|e]; [|reflexivity].
  destruct (get_prop userConfig "git") as [userGit|e]; [|reflexivity].
  now destruct (truthy userGit).
Qed.

(** X14. [loadConfig] never throws and never writes: whatever the disk
    holds, it returns a config and the disk is as before. *)
Theorem loadConfig_total_readonly (this : FoxyConfigManager) (w : world) :
  (∃ config, fst (loadConfig this w) = Ok config)
  ∧ fs (snd (loadConfig this w)) = fs w.
Proof.
  split; [|apply loadConfig_keeps_disk].
  destruct (loadConfig_shape this w) as [u Hu]. eauto.
Qed.

Lemma default_git_group :
  own_props (FoxyConfig_object DEFAULT_CONFIG) !! lit "git"
  = Some (GitConfig_object (git DEFAULT_CONFIG)).
Proof. vm_compute. reflexivity. Qed.

Lemma union_absorbs (a d : gmap jsstring json) : (a ∪ d) ∪ d = a ∪ d.
Proof.
  forget_externals.
  rewrite <- (assoc_L (∪)). now rewrite (idemp_L (∪) d).
Qed.

Lemma merge_over_defaults_absorbs (userConfig : json) :
  JObj (spread2 (FoxyConfig_object DEFAULT_CONFIG)
                (merge_over_defaults userConfig))
  = merge_over_defaults userConfig.
Proof.
  forget_externals. unfold spread2, merge_over_defaults.
  destruct (own_props userConfig !! lit "git") as [userGit|];
    [destruct (truthy (Some userGit))|]; cbn [own_props];
    rewrite <- ?insert_union_l; now rewrite union_absorbs.
Qed.

Lemma merge_over_defaults_idem (userConfig : json) :
  merge_over_defaults (merge_over_defaults userConfig)
  = merge_over_defaults userConfig.
Proof.
  forget_externals.
  pose proof (merge_over_defaults_absorbs userConfig) as Habs.
  apply (f_equal own_props) in Habs. unfold spread2 in Habs.
  cbn [own_props] in Habs.
  unfold merge_over_defaults at 1. cbv zeta. rewrite Habs. clear Habs.
  unfold merge_over_defaults.
  destruct (own_props userConfig !! lit "git") as [userGit|] eqn:Hg.
  - destruct (truthy (Some userGit)) eqn:Ht; cbn [own_props].
    + rewrite lookup_insert_eq. cbn [truthy own_props].
      rewrite union_absorbs. now rewrite insert_insert_eq.
    + rewrite (lookup_union_Some_l _ _ _ _ Hg). now rewrite Ht.
  - cbn [own_props]. rewrite lookup_union_r by assumption.
    rewrite default_git_group.
    change (truthy (Some (GitConfig_object (git DEFAULT_CONFIG)))) with true.
    cbv iota. rewrite (idemp_L (∪)).
    change (JObj (own_props (GitConfig_object (git DEFAULT_CONFIG))))
      with (GitConfig_object (git DEFAULT_CONFIG)).
    f_equal. apply insert_id. rewrite lookup_union_r by assumption.
    apply default_git_group.
Qed.

(** X15. Saving a config that [loadConfig] returned and loading again
    gives that same config back ([JSON.parse] undoing [JSON.stringify] at
    it): the merge over the defaults changes nothing the second time. *)
Theorem saveConfig_then_load (this origin : FoxyConfigManager)
    (w0 w : world) (config : json) :
  fst (loadConfig origin w0) = Ok config →
  JSON_parse (JSON_stringify config) = Ok config →
  fs w !! foxycfg this ≠ Some Directory →
  fst (loadConfig this (snd (saveConfig this config w))) = Ok config.
Proof.
  intros Hloaded Hjson Hdir.
  destruct (loadConfig_shape origin w0) as [u Hu].
  rewrite Hu in Hloaded. injection Hloaded as <-.
  set (w1 := snd (saveConfig this (merge_over_defaults u) w)).
  assert (Hf : fs w1 !! foxycfg this
               = Some (File (JSON_stringify (merge_over_defaults u)))).
  { unfold w1, saveConfig, try_catch, writeFileSync.
    destruct (fs w !! foxycfg this) as [[c|]|]; try congruence;
      simpl_world; apply lookup_insert_eq. }
  pose proof (loadConfig_present this w1 _ Hf) as H.
  unfold read_file in H. rewrite Hf in H. cbn [bind_result] in H.
  rewrite Hjson in H. rewrite H. now rewrite merge_over_defaults_idem.
Qed.

Lemma createDefaultConfig_present (this : FoxyConfigManager) (w : world)
    (n : node) :
  fs w !! foxycfg this = Some n →
  ∃ u w', fst (loadConfig this w) = Ok (merge_over_defaults u)
    ∧ createDefaultConfig this w = (Ok tt, w')
    ∧ fs w' = match n with
              | File _ =>
                <[foxycfg this :=
                    File (JSON_stringify (merge_over_defaults u))]> (fs w)
              | Directory => fs w
              end.
Proof.
  intros Hf. unfold createDefaultConfig. unfold bind at 1.
  unfold read, existsSync.
  rewrite bool_decide_eq_true_2 by (rewrite Hf; eauto).
  unfold bind at 1. unfold print at 1.
  set (w1 := with_console w _).
  assert (Hfs1 : fs w1 = fs w) by reflexivity.
  destruct (loadConfig_shape this w1) as [u Hu].
  pose proof (loadConfig_keeps_disk this w1) as Hkeep.
  assert (Hsame : fst (loadConfig this w1) = fst (loadConfig this w)).
  { assert (Hf1 : fs w1 !! foxycfg this = Some n) by now rewrite Hfs1.
    pose proof (loadConfig_present this w1 n Hf1) as H1.
    pose proof (loadConfig_present this w n Hf) as H0.
    rewrite Hfs1 in H1.
    destruct (bind_result (read_file (fs w) (foxycfg this)) JSON_parse);
      [congruence|]. now rewrite H1, H0. }
  exists u. rewrite <- Hsame. unfold bind at 1.
  destruct (loadConfig this w1) as [[c|e] w2]; cbn [fst snd] in *;
    [|discriminate Hu].
  injection Hu as ->. rewrite merge_over_defaults_absorbs.
  unfold bind, saveConfig, try_catch, writeFileSync, print.
  rewrite Hkeep, Hfs1, Hf.
  destruct n as [c|]; simpl_world; eexists; (split; [reflexivity|]);
    (split; [reflexivity|]); simpl_world; now rewrite ?Hkeep, ?Hfs1.
Qed.

Lemma createDefaultConfig_absent (this : FoxyConfigManager) (w : world) :
  fs w !! foxycfg this = None →
  ∃ w', createDefaultConfig this w = (Ok tt, w')
    ∧ fs w' = <[foxycfg this :=
                  File (JSON_stringify (FoxyConfig_object DEFAULT_CONFIG))]>
                (fs w).
Proof.
  intros Hf. unfold createDefaultConfig. unfold bind at 1.
  unfold read, existsSync.
  rewrite bool_decide_eq_false_2
    by (rewrite Hf; intros [x Hx]; discriminate).
  unfold bind, saveConfig, try_catch, writeFileSync, print. rewrite Hf.
  simpl_world. eexists. split; reflexivity.
Qed.

(** X16. [createDefaultConfig] never throws.  Without a [.foxycfg] it
    writes the defaults.  Over an existing file it writes back the config
    [loadConfig] returns for that file, so the settings of the file are
    kept (and a file that cannot be parsed is replaced by the defaults).
    Where the path cannot be written the disk is as before. *)
Theorem createDefaultConfig_keeps_settings (this : FoxyConfigManager)
    (w : world) :
  fst (createDefaultConfig this w) = Ok tt
  ∧ match fs w !! foxycfg this with
    | None =>
      fs (snd (createDefaultConfig this w))
      = <[foxycfg this :=
            File (JSON_stringify (FoxyConfig_object DEFAULT_CONFIG))]> (fs w)
    | Some (File _) =>
      ∃ config, fst (loadConfig this w) = Ok config
        ∧ fs (snd (createDefaultConfig this w))
          = <[foxycfg this := File (JSON_stringify config)]> (fs w)
    | Some Directory => fs (snd (createDefaultConfig this w)) = fs w
    end.
Proof.
  destruct (fs w !! foxycfg this) as [n|] eqn:Hf.
  - destruct (createDefaultConfig_present this w n Hf)
      as (u & w' & Hload & Hrun & Hfs).
    rewrite Hrun. cbn [fst snd]. split; [reflexivity|].
    destruct n as [c|]; [|assumption]. eauto.
  - destruct (createDefaultConfig_absent this w Hf) as (w' & Hrun & Hfs).
    rewrite Hrun. cbn [fst snd]. split; [reflexivity | assumption].
Qed.

(** ** util/FoxyClient.ts: initialisation, reset and the settings cache *)

Lemma ensureInitialized_noop (this : FoxyClient) (w : world) :
  isInitialized w = true → is_Some (GGProfile w) →
  ensureInitialized this w = (Ok tt, w).
Proof.
  intros Hi Hp. unfold ensureInitialized. rewrite Hi.
  now rewrite bool_decide_eq_true_2.
Qed.

Lemma ensureInitialized_flag (this : FoxyClient) (w w1 : world) :
  ensureInitialized this w = (Ok tt, w1) → isInitialized w1 = true.
Proof.
  unfold ensureInitialized.
  destruct (isInitialized w && bool_decide (is_Some (GGProfile w))) eqn:E.
  - intros [= <-]. now apply andb_prop in E as [E _].
  - unfold bind at 1.
    match goal with |- context [match ?m w with _ => _ end] =>
      destruct (m w) as [[apiKey|e] w'] end.
    + intros [= <-]. reflexivity.
    + intros H. discriminate H.
Qed.

(** X17. Once [ensureInitialized] has succeeded the client is
    initialised and holds a handle on the model, and a second call does
    nothing: it asks nothing, reads nothing, and returns at once. *)
Theorem ensureInitialized_idempotent (this : FoxyClient) (w w1 : world) :
  ensureInitialized this w = (Ok tt, w1) →
  isInitialized w1 = true
  ∧ is_Some (GGProfile w1)
  ∧ ensureInitialized this w1 = (Ok tt, w1).
Proof.
  intros H.
  pose proof (ensureInitialized_flag this w w1 H) as Hi.
  pose proof (ensureInitialized_profile this w w1 H) as Hp.
  split; [assumption|]. split; [assumption|].
  now apply ensureInitialized_noop.
Qed.

(** X18. With a secret file that decrypts, a client that is not yet
    initialised takes the key from the file: the operator is asked nothing,
    nothing is written or printed, and the handle on the model holds the
    decrypted key and the model name [gemini-2.0-flash]. *)
Theorem ensureInitialized_uses_saved_key (this : FoxyClient) (w : world)
    (text k : jsstring) :
  isInitialized w && bool_decide (is_Some (GGProfile w)) = false →
  fs w !! configPath (apiKeyManager this) = Some (File text) →
  decrypt (apiKeyManager this) text = Ok k →
  ensureInitialized this w
  = (Ok tt,
     with_client w
       (Some {| GOOGLE_API_KEY := k; modelName := lit "gemini-2.0-flash" |})
       true).
Proof.
  intros Hc Hf Hd. unfold ensureInitialized. rewrite Hc.
  unfold bind at 1. unfold bind at 1. unfold read, hasApiKey, existsSync.
  rewrite bool_decide_eq_true_2 by (rewrite Hf; eauto).
  unfold try_catch. rewrite (loadApiKey_reads _ _ _ Hf), Hd. reflexivity.
Qed.

(** X19. [resetApiKey] never throws and leaves the client without handle
    and not initialised, but the secret stays where it is, since
    [deleteApiKey] removes nothing: the disk is as before and the client is
    configured afterwards exactly if it was before.  So where the secret
    decrypts, the next [ensureInitialized] takes the old key back from the
    file and asks the operator nothing. *)
Theorem resetApiKey_keeps_secret (this : FoxyClient) (w : world) :
  fst (resetApiKey this w) = Ok tt
  ∧ isInitialized (snd (resetApiKey this w)) = false
  ∧ GGProfile (snd (resetApiKey this w)) = None
  ∧ fs (snd (resetApiKey this w)) = fs w
  ∧ isConfigured this (snd (resetApiKey this w)) = isConfigured this w
  ∧ (∀ text k,
       fs w !! configPath (apiKeyManager this) = Some (File text) →
       decrypt (apiKeyManager this) text = Ok k →
       ensureInitialized this (snd (resetApiKey this w))
       = (Ok tt,
          with_client (snd (resetApiKey this w))
            (Some {| GOOGLE_API_KEY := k;
                     modelName := lit "gemini-2.0-flash" |})
            true)).
Proof.
  unfold resetApiKey, bind, print. rewrite deleteApiKey_run. cbn [fst snd].
  set (w1 := if hasApiKey (apiKeyManager this) w then _ else w).
  assert (Hfs : fs w1 = fs w)
    by (subst w1; now destruct (hasApiKey (apiKeyManager this) w)).
  simpl_world. split; [reflexivity|]. split; [reflexivity|].
  split; [reflexivity|]. split; [exact Hfs|]. split.
  { unfold isConfigured, hasApiKey, existsSync. simpl_world. now rewrite Hfs. }
  intros text k Hf Hd.
  set (w2 := with_console _ _).
  assert (Hf2 : fs w2 !! configPath (apiKeyManager this) = Some (File text)).
  { subst w2. simpl_world. now rewrite Hfs. }
  unfold ensureInitialized.
  change (isInitialized w2) with false. cbn [andb].
  unfold bind at 1. unfold bind at 1. unfold read, hasApiKey, existsSync.
  rewrite bool_decide_eq_true_2 by (rewrite Hf2; eauto).
  unfold try_catch. rewrite (loadApiKey_reads _ _ _ Hf2), Hd. reflexivity.
Qed.

Lemma SettingsSchema_accepts (props : gmap jsstring json) (s : jsstring) :
  props !! lit "instrutor" = Some (JStr s) →
  s = lit "chat_mode" ∨ s = lit "normal" →
  safeParse SettingsSchema (JObj props)
  = Some (obj [("instrutor"%string, JStr s)]).
Proof.
  intros Hp Hs. cbn [safeParse SettingsSchema]. rewrite Hp.
  unfold streq. destruct Hs as [->| ->].
  - now rewrite bool_decide_eq_true_2.
  - rewrite (bool_decide_eq_true_2 (lit "normal" = lit "normal")) by reflexivity.
    now rewrite orb_true_r.
Qed.

Lemma settings_instrutor (s : jsstring) :
  get_prop (obj [("instrutor"%string, JStr s)]) "instrutor" = Ok (Some (JStr s)).
Proof.
  unfold get_prop, obj. cbn [map fst snd list_to_map foldr uncurry].
  f_equal; try apply lookup_insert_eq.
Qed.

Lemma responder_after_load (this : FoxyClient) (text : jsstring) (w : world)
    (profile : GGClient) (s : jsstring) :
  isInitialized w = true →
  GGProfile w = Some profile →
  existsSync (settings_file this) w = true →
  loadCache (CacheManager this) (lit "settings") None w
  = (Ok (obj [("instrutor"%string, JStr s)]), w) →
  responder this text w
  = (prompt <- PromptToGenerate
                 (if streq s (lit "chat_mode") then chat_mode else any) text;;
     ret (GG_generate profile prompt)) w.
Proof.
  intros Hi Hp Hex Hload. unfold responder. unfold bind at 1.
  rewrite ensureInitialized_noop by (rewrite ?Hp; eauto).
  unfold bind at 1. unfold read at 1. rewrite Hp.
  unfold bind at 1. unfold read at 1. unfold hasExistingCache.
  fold (settings_file this). rewrite Hex. cbn [negb].
  unfold bind at 1. unfold ret at 1. unfold bind at 1. rewrite Hload.
  unfold bind at 1. unfold lift at 1. rewrite settings_instrutor.
  reflexivity.
Qed.

(** X20. With the client initialised and a settings file that parses to
    an object whose [instrutor] is one of the two accepted strings,
    [responder] writes nothing and sends the remote model the prompt built
    for the mode of the file: [chat_mode] for [chat_mode], [any]
    otherwise. *)
Theorem responder_reads_mode (this : FoxyClient) (text : jsstring) (w : world)
    (profile : GGClient) (content : jsstring) (props : gmap jsstring json)
    (s : jsstring) :
  schemas (CacheManager this) !! lit "settings" = Some SettingsSchema →
  isInitialized w = true →
  GGProfile w = Some profile →
  fs w !! settings_file this = Some (File content) →
  JSON_parse content = Ok (JObj props) →
  props !! lit "instrutor" = Some (JStr s) →
  s = lit "chat_mode" ∨ s = lit "normal" →
  responder this text w
  = (prompt <- PromptToGenerate
                 (if streq s (lit "chat_mode") then chat_mode else any) text;;
     ret (GG_generate profile prompt)) w.
Proof.
  intros Hs Hi Hp Hf Hj Hprops Hok.
  apply responder_after_load; try assumption.
  - unfold existsSync. apply bool_decide_eq_true_2. rewrite Hf. eauto.
  - apply (loadCache_reads_valid (CacheManager this) (lit "settings")
             SettingsSchema None content (JObj props) _ w Hs Hf Hj).
    now apply SettingsSchema_accepts.
Qed.

Lemma saveCache_valid_run (this : CacheController) (filename : jsstring)
    (schema : ZodType) (D data : json) (w : world) :
  schemas this !! filename = Some schema →
  safeParse schema D = Some data →
  fs w !! cache_file this filename ≠ Some Directory →
  saveCache this filename D w
  = (Ok tt,
     with_fs w (<[cache_file this filename := File (JSON_stringify D)]> (fs w))).
Proof.
  intros Hs Hv Hdir. unfold saveCache. rewrite Hs, Hv.
  unfold bind, ret, try_catch, writeFileSync.
  destruct (fs w !! cache_file this filename) as [[c|]|]; congruence.
Qed.

Lemma normal_is_not_chat_mode : streq (lit "normal") (lit "chat_mode") = false.
Proof. vm_compute. reflexivity. Qed.

(** X21. On a first run (client initialised, no settings file yet),
    [responder] seeds the settings cache with [instrutor = normal] and
    sends the remote model the prompt built for the mode [any]
    ([JSON.parse] undoing [JSON.stringify] at the seeded object). *)
Theorem responder_first_run_seeds_settings (this : FoxyClient)
    (text : jsstring) (w : world) (profile : GGClient) :
  schemas (CacheManager this) !! lit "settings" = Some SettingsSchema →
  isInitialized w = true →
  GGProfile w = Some profile →
  fs w !! settings_file this = None →
  JSON_parse (JSON_stringify normal_settings) = Ok normal_settings →
  responder this text w
  = (prompt <- PromptToGenerate any text;;
     ret (GG_generate profile prompt))
      (with_fs w (<[settings_file this :=
                      File (JSON_stringify normal_settings)]> (fs w))).
Proof.
  intros Hs Hi Hp Hf Hj.
  assert (Hvalid : safeParse SettingsSchema normal_settings
                   = Some normal_settings).
  { unfold normal_settings at 1, obj.
    cbn [map fst snd list_to_map foldr uncurry].
    rewrite (SettingsSchema_accepts _ (lit "normal"));
      [reflexivity | apply lookup_insert_eq | now right]. }
  set (w1 := with_fs w (<[settings_file this :=
                            File (JSON_stringify normal_settings)]> (fs w))).
  assert (Hsave : saveCache (CacheManager this) (lit "settings")
                    normal_settings w = (Ok tt, w1)).
  { apply (saveCache_valid_run _ _ SettingsSchema _ normal_settings);
      try assumption.
    fold (settings_file this). rewrite Hf. discriminate. }
  assert (Hload : loadCache (CacheManager this) (lit "settings") None w1
                  = (Ok normal_settings, w1)).
  { apply (loadCache_reads_valid (CacheManager this) (lit "settings")
             SettingsSchema None (JSON_stringify normal_settings)
             normal_settings normal_settings w1 Hs); try assumption.
    apply lookup_insert_eq. }
  unfold responder. unfold bind at 1.
  rewrite ensureInitialized_noop by (rewrite ?Hp; eauto).
  unfold bind at 1. unfold read at 1. rewrite Hp.
  unfold bind at 1. unfold read at 1. unfold hasExistingCache, existsSync.
  fold (settings_file this).
  rewrite bool_decide_eq_false_2
    by (rewrite Hf; intros [x Hx]; discriminate).
  cbn [negb]. unfold bind at 1. unfold bind at 1.
  unfold createCache. rewrite Hs. unfold effective_default.
  unfold bind at 1. fold normal_settings. rewrite Hsave.
  unfold ret at 1. unfold ret at 1. unfold bind at 1. rewrite Hload.
  unfold bind at 1. unfold lift at 1.
  unfold normal_settings at 1. rewrite settings_instrutor.
  unfold strictly_equals. now rewrite normal_is_not_chat_mode.
Qed.

(** ** util/CommitMessageGenerator.ts: the summary of the changes *)

Lemma summary_line_cases (label : jsstring) (paths : list jsstring) :
  (paths = [] ∧ summary_line label paths = [])
  ∨ (paths ≠ [] ∧ ∃ rest, summary_line label paths = [label ++ rest]).
Proof.
  forget_externals. unfold summary_line. destruct paths as [|p ps].
  - left. split; reflexivity.
  - right. split; [discriminate|].
    rewrite bool_decide_eq_true_2 by (cbn; lia).
    eexists. reflexivity.
Qed.

Lemma join_head_nonempty (sep : jsstring) (c : N) (r : jsstring)
    (parts : list jsstring) :
  join sep ((c :: r) :: parts) ≠ [].
Proof. destruct parts; discriminate. Qed.

Lemma summary_labels :
  (∃ c r, lit "Adicionados: " = c :: r)
  ∧ (∃ c r, lit "Modificados: " = c :: r)
  ∧ (∃ c r, lit "Removidos: " = c :: r).
Proof. repeat split; vm_compute; eauto. Qed.

(** X22. The summary of the changes is the empty string exactly when
    nothing was added, modified or deleted. *)
Theorem buildChangeSummary_empty_iff (changes : GitChanges) :
  buildChangeSummary changes = []
  ↔ added changes = [] ∧ modified changes = [] ∧ deleted changes = [].
Proof.
  forget_externals. unfold buildChangeSummary.
  destruct summary_labels as ((ca & ra & Ea) & (cm & rm & Em) & (cd & rd & Ed)).
  destruct (summary_line_cases (lit "Adicionados: ") (added changes))
    as [[Ha ->]|[Ha [xa ->]]];
  destruct (summary_line_cases (lit "Modificados: ") (modified changes))
    as [[Hm ->]|[Hm [xm ->]]];
  destruct (summary_line_cases (lit "Removidos: ") (deleted changes))
    as [[Hd ->]|[Hd [xd ->]]];
  rewrite ?Ea, ?Em, ?Ed; cbn [app];
  (split; [intros H | intros (H1 & H2 & H3)]);
  try (exfalso; congruence);
  try (exfalso; revert H; apply join_head_nonempty);
  auto.
Qed.

(** ** index.ts: the status as [handleGitCommit] parses it *)

Lemma is_white_space_M : is_white_space 77 = false.
Proof. reflexivity. Qed.

Lemma trimStart_fixed (c : N) (r : jsstring) :
  is_white_space c = false → trimStart (c :: r) = c :: r.
Proof. intros H. cbn. now rewrite H. Qed.

Lemma trimEnd_fixed (s : jsstring) (c : N) :
  last s = Some c → is_white_space c = false → trimEnd s = s.
Proof.
  forget_externals. intros Hlast Hc. unfold trimEnd.
  destruct (rev s) as [|d r] eqn:Hrev.
  - apply (f_equal (@rev N)) in Hrev. rewrite rev_involutive in Hrev.
    subst s. discriminate Hlast.
  - assert (Hs : s = rev r ++ [d]).
    { apply (f_equal (@rev N)) in Hrev. now rewrite rev_involutive in Hrev. }
    assert (d = c) as ->.
    { rewrite Hs, last_snoc in Hlast. congruence. }
    rewrite trimStart_fixed by assumption. now rewrite <- Hrev, rev_involutive.
Qed.

Lemma split_single (s : jsstring) : LF ∉ s → split LF s = [s].
Proof. apply split_without. Qed.

Lemma status_literals :
  lit " M " = [SPACE; 77%N; SPACE] ∧ lit "M " = [77%N; SPACE].
Proof. split; vm_compute; reflexivity. Qed.

Lemma parse_of_one_line (status line : jsstring) :
  filter (fun l => trim l ≠ []) (split LF status) = [line] →
  parseGitStatus status
  = {| added := paths_with 65 [line];
       modified := paths_with 77 [line];
       deleted := paths_with 68 [line] |}.
Proof.
  intros Hlines. unfold parseGitStatus. rewrite Hlines.
  pose proof (fold_classify [line]
                {| added := []; modified := []; deleted := [] |}) as H.
  cbv zeta in H. destruct H as (Ha & Hm & Hd).
  cbn [added modified deleted app] in *.
  destruct (fold_left classify [line] _) as [a m d].
  cbn [added modified deleted] in *. now subst.
Qed.

Lemma trimEnd_line_feed (s : jsstring) : trimEnd (s ++ [LF]) = trimEnd s.
Proof. unfold trimEnd. now rewrite rev_unit. Qed.

(** X23. [handleGitCommit] trims the output of [git status --porcelain]
    before it parses it.  When that output is the one line of an unstaged
    modification, [ M path] and a line feed, the trim removes the leading
    space of the code, and the path is parsed without its first character;
    parsed untrimmed, the same output gives the path whole. *)
Theorem parseGitStatus_after_trim (path : jsstring) (c : N) :
  LF ∉ path →
  last path = Some c →
  is_white_space c = false →
  let output := lit " M " ++ path ++ [LF] in
  trim output = lit "M " ++ path
  ∧ parseGitStatus (trim output)
    = {| added := []; modified := [drop 1 path]; deleted := [] |}
  ∧ parseGitStatus output
    = {| added := []; modified := [path]; deleted := [] |}.
Proof.
  forget_externals. intros Hlf Hlast Hc output. unfold output. clear output.
  destruct status_literals as [-> ->].
  assert (Hlast2 : ∀ pre, last (pre ++ path) = Some c).
  { intros pre. destruct path as [|x r] using rev_ind; [discriminate Hlast|].
    rewrite app_assoc, last_snoc. now rewrite last_snoc in Hlast. }
  assert (Htrim1 : trim ([77%N; SPACE] ++ path) = [77%N; SPACE] ++ path).
  { unfold trim. cbn [app]. rewrite trimStart_fixed by reflexivity.
    apply (trimEnd_fixed _ c); [apply (Hlast2 [77%N; SPACE])|assumption]. }
  assert (Htrim0 : trim ([SPACE; 77%N; SPACE] ++ path) = [77%N; SPACE] ++ path).
  { unfold trim. cbn [app].
    change (trimStart (SPACE :: 77%N :: SPACE :: path))
      with (trimStart (77%N :: SPACE :: path)).
    rewrite trimStart_fixed by reflexivity.
    apply (trimEnd_fixed _ c); [apply (Hlast2 [77%N; SPACE])|assumption]. }
  assert (Htrim : trim ([SPACE; 77%N; SPACE] ++ path ++ [LF])
                  = [77%N; SPACE] ++ path).
  { unfold trim. cbn [app].
    change (trimStart (SPACE :: 77%N :: SPACE :: path ++ [LF]))
      with (trimStart (77%N :: SPACE :: path ++ [LF])).
    rewrite trimStart_fixed by reflexivity.
    change (77%N :: SPACE :: path ++ [LF])
      with (([77%N; SPACE] ++ path) ++ [LF]).
    rewrite trimEnd_line_feed.
    apply (trimEnd_fixed _ c); [apply (Hlast2 [77%N; SPACE])|assumption]. }
  assert (Hlf1 : LF ∉ [77%N; SPACE] ++ path).
  { cbn [app]. rewrite !not_elem_of_cons. repeat split; try discriminate.
    assumption. }
  assert (Hlf0 : LF ∉ [SPACE; 77%N; SPACE] ++ path).
  { cbn [app]. rewrite !not_elem_of_cons. repeat split; try discriminate.
    assumption. }
  split; [assumption|]. split.
  - rewrite Htrim.
    rewrite (parse_of_one_line _ ([77%N; SPACE] ++ path)); [reflexivity|].
    rewrite split_single by assumption.
    rewrite filter_cons_True by (rewrite Htrim1; discriminate).
    reflexivity.
  - rewrite (parse_of_one_line _ ([SPACE; 77%N; SPACE] ++ path));
      [reflexivity|].
    rewrite app_assoc. change [LF] with (LF :: []).
    rewrite split_at_first by assumption. cbn [split].
    rewrite filter_cons_True by (rewrite Htrim0; discriminate).
    rewrite filter_cons_False by (intros H; now apply H).
    reflexivity.
Qed.

(** ** The module of [TrasformeToFile]: writing one generated file *)

Lemma askUser_run (query : jsstring) (w : world) :
  askUser query w
  = (Ok (trim (toLowerCase (operator (answered w)))),
     with_answered (with_console w (console w ++ [rl_question query]))
                   (S (answered w))).
Proof. reflexivity. Qed.

(** X24. [handleFileCreation] does not overwrite a file that exists
    unless the operator agrees: when the answer, in lower case and trimmed,
    is neither [s] nor [sim], it returns without touching the disk. *)
Theorem handleFileCreation_keeps_existing (file : GeneratedFile) (w : world)
    (n : node) :
  fs w !! filePath file = Some n →
  trim (toLowerCase (operator (answered w))) ≠ lit "s" →
  trim (toLowerCase (operator (answered w))) ≠ lit "sim" →
  ∃ w', handleFileCreation file w = (Ok tt, w')
    ∧ fs w' = fs w
    ∧ answered w' = S (answered w).
Proof.
  intros Hf Hs Hsim. unfold handleFileCreation.
  unfold bind at 1. unfold read, existsSync.
  rewrite bool_decide_eq_true_2 by (rewrite Hf; eauto).
  unfold bind at 1. unfold bind at 1. rewrite askUser_run.
  unfold streq. rewrite !bool_decide_eq_false_2 by assumption.
  cbn [negb andb]. unfold bind, print, ret. simpl_world.
  eexists. split; [reflexivity|]. simpl_world. split; reflexivity.
Qed.

(** X25. For a path that holds nothing yet, the operator is asked
    nothing; for a file that exists and an answer [s] or [sim] the file is
    overwritten.  Either way (the parent directory not being a file, and not
    being the path itself) the path holds the generated content
    afterwards. *)
Theorem handleFileCreation_writes (file : GeneratedFile) (w : world) :
  (fs w !! filePath file = None
   ∨ (∃ old, fs w !! filePath file = Some (File old))
     ∧ (trim (toLowerCase (operator (answered w))) = lit "s"
        ∨ trim (toLowerCase (operator (answered w))) = lit "sim")) →
  path_dirname (filePath file) ≠ filePath file →
  (∀ text, fs w !! path_dirname (filePath file) ≠ Some (File text)) →
  ∃ w', handleFileCreation file w = (Ok tt, w')
    ∧ fs w' !! filePath file = Some (File (content file))
    ∧ (fs w !! filePath file = None → answered w' = answered w).
Proof.
  intros Hcase Hne Hdir.
  assert (Hwrite : ∀ w0, fs w0 = fs w →
            ∃ w', (mkdirSync (path_dirname (filePath file));;;
                   writeFileSync (filePath file) (content file);;;
                   print (console_log
                     (lit "✅ | Arquivo salvo com sucesso em: "
                      ++ filePath file))) w0 = (Ok tt, w')
              ∧ fs w' !! filePath file = Some (File (content file))
              ∧ answered w' = answered w0).
  { intros w0 Hfs0. unfold bind, mkdirSync, writeFileSync, print.
    rewrite Hfs0.
    destruct (fs w !! path_dirname (filePath file)) as [[text|]|] eqn:Hd;
      [exfalso; exact (Hdir text eq_refl)| |]; simpl_world;
      rewrite lookup_insert_ne by assumption;
      (destruct Hcase as [Hf|[[old Hf] _]]; rewrite Hf); simpl_world;
      eexists; (split; [reflexivity|]); simpl_world;
      (split; [apply lookup_insert_eq | reflexivity]). }
  unfold handleFileCreation. unfold bind at 1. unfold read, existsSync.
  destruct Hcase as [Hf|[[old Hf] Hans]].
  - rewrite bool_decide_eq_false_2
      by (rewrite Hf; intros [x Hx]; discriminate).
    unfold bind at 1. unfold ret at 1.
    destruct (Hwrite w eq_refl) as (w' & Hrun & Hfile & Hasked).
    exists w'. split; [exact Hrun|]. split; [assumption|]. intros _. assumption.
  - rewrite bool_decide_eq_true_2 by (rewrite Hf; eauto).
    unfold bind at 1. unfold bind at 1. rewrite askUser_run.
    assert (Hyes : negb (streq (trim (toLowerCase (operator (answered w))))
                               (lit "s"))
                   && negb (streq (trim (toLowerCase (operator (answered w))))
                                  (lit "sim")) = false).
    { unfold streq. destruct Hans as [->| ->].
      - now rewrite bool_decide_eq_true_2.
      - rewrite (bool_decide_eq_true_2 (lit "sim" = lit "sim")) by reflexivity.
        cbn [negb]. apply andb_false_r. }
    rewrite Hyes. unfold ret at 1.
    set (w0 := with_answered _ _).
    destruct (Hwrite w0 eq_refl) as (w' & Hrun & Hfile & _).
    exists w'. split; [exact Hrun|]. split; [assumption|].
    intros Hnone. rewrite Hf in Hnone. discriminate Hnone.
Qed.

(** ** util/CommitMessageGenerator.ts: what the message can hold *)

Lemma plain_spec (s : jsstring) :
  forallb plain s = true →
  ∀ c, c ∈ s → c ≠ SQUOTE ∧ c ≠ DQUOTE ∧ c ≠ LF.
Proof.
  forget_externals. intros H c Hin.
  rewrite forallb_forall in H. apply list_elem_of_In in Hin.
  specialize (H c Hin). unfold plain in H.
  apply andb_prop in H as [H Hlf]. apply andb_prop in H as [Hs Hd].
  apply negb_true_iff, N.eqb_neq in Hs, Hd, Hlf. auto.
Qed.

Lemma plain_digits (n : nat) : forallb plain (String_of_nat n) = true.
Proof.
  forget_externals. apply forallb_forall. intros c Hin.
  pose proof (digits_are_digits (Nat.to_uint n)) as Hd.
  rewrite Forall_forall in Hd. apply list_elem_of_In in Hin.
  specialize (Hd c Hin). unfold plain, SQUOTE, DQUOTE, LF.
  rewrite !andb_true_iff, !negb_true_iff, !N.eqb_neq. lia.
Qed.

Lemma plain_fallback (emoji conv : bool) (a m d : nat) :
  forallb plain (fallback_template emoji conv a m d) = true.
Proof.
  forget_externals. unfold fallback_template.
  rewrite !forallb_app, plain_digits.
  destruct emoji, conv; repeat case_bool_decide; vm_compute; reflexivity.
Qed.

(** X26. [generateCommitMessage] never throws, and the message it
    returns, whether the cleaned answer of the model or the fallback,
    holds no single quote, no double quote and no line feed. *)
Theorem generateCommitMessage_total_clean (foxyClient : FoxyClient)
    (config : FoxyConfig) (changes : GitChanges) (w : world) :
  ∃ m w',
    generateCommitMessage foxyClient config changes w = (Ok m, w')
    ∧ (∀ c, c ∈ m → c ≠ SQUOTE ∧ c ≠ DQUOTE ∧ c ≠ LF).
Proof.
  rewrite generateCommitMessage_unfold.
  unfold generate_from, try_catch, bind, lift, ret.
  destruct (responder foxyClient (commit_prompt config changes) w)
    as [[[message|e]|e] w'].
  - eexists _, w'. split; [reflexivity|].
    intros c Hin. now apply cleanMessage_chars in Hin.
  - eexists _, w'. split; [reflexivity|].
    rewrite getFallbackMessage_template. apply plain_spec, plain_fallback.
  - eexists _, w'. split; [reflexivity|].
    rewrite getFallbackMessage_template. apply plain_spec, plain_fallback.
Qed.

Lemma filter_all {A} (P : A → Prop) `{∀ x, Decision (P x)} (l : list A) :
  (∀ x, x ∈ l → P x) → filter P l = l.
Proof.
  forget_externals. induction l as [|x l IH]; intros Hall; [reflexivity|].
  rewrite filter_cons_True by (apply Hall; left).
  f_equal. apply IH. intros y Hy. apply Hall. now right.
Qed.

(** X27. [cleanMessage] leaves an answer as it is when there is nothing
    to clean: no white space around it, no quote and no line feed in it,
    and a length within [maxMessageLength]. *)
Theorem cleanMessage_keeps_clean (config : FoxyConfig) (message : jsstring) :
  trim message = message →
  (∀ c, c ∈ message → c ≠ SQUOTE ∧ c ≠ DQUOTE ∧ c ≠ LF) →
  (jslength message <= maxMessageLength config)%Z →
  cleanMessage config message = message.
Proof.
  forget_externals. intros Htrim Hchars Hlen. unfold cleanMessage.
  rewrite Htrim.
  assert (Hq : remove_quotes message = message).
  { unfold remove_quotes. apply filter_all. intros c Hc.
    destruct (Hchars c Hc) as (? & ? & ?). auto. }
  rewrite Hq.
  assert (Hn : newlines_to_spaces message = message).
  { unfold newlines_to_spaces. rewrite <- (map_id message) at 2.
    apply map_ext_in. intros c Hc. apply list_elem_of_In in Hc.
    destruct (Hchars c Hc) as (_ & _ & Hlf).
    apply N.eqb_neq in Hlf. now rewrite Hlf. }
  rewrite Hn. unfold jslength in Hlen.
  rewrite <- (Z2Nat.id (maxMessageLength config)) by lia.
  rewrite substring_prefix. apply take_ge. lia.
Qed.

(** ** util/ApiKeyManager.ts: the record written *)

Lemma toString_hex_length (buf : list Byte.byte) :
  length (toString_hex buf) = (2 * length buf)%nat.
Proof.
  forget_externals. induction buf as [|b r IH]; [reflexivity|].
  change (toString_hex (b :: r)) with (hex_of_byte b ++ toString_hex r).
  rewrite length_app, IH. cbn [length hex_of_byte]. lia.
Qed.

(** X28. What [encrypt] returns, where the cipher of the library
    succeeds, splits on the colon into exactly two parts: the sixteen bytes
    drawn from the random source as 32 hexadecimal characters, and the
    ciphertext in hexadecimal; and the next encryption draws the sixteen
    bytes that follow. *)
Theorem encrypt_record_format (this : ApiKeyManager) (text : jsstring)
    (w : world) (cipher : list Byte.byte) :
  aes_256_cbc_encrypt (encryptionKey this) (next_iv w) text = Ok cipher →
  ∃ record w',
    encrypt this text w = (Ok record, w')
    ∧ split COLON record = [toString_hex (next_iv w); toString_hex cipher]
    ∧ length (toString_hex (next_iv w)) = 32%nat
    ∧ Buffer_from_hex (toString_hex (next_iv w)) = next_iv w
    ∧ drawn w' = (drawn w + 16)%nat.
Proof.
  intros Henc. rewrite (encrypt_ok _ _ _ _ Henc).
  eexists _, _. split; [reflexivity|]. simpl_world.
  split.
  { unfold secret_record.
    assert (Hcolon : lit ":" = [COLON]) by (vm_compute; reflexivity).
    rewrite Hcolon. cbn [app].
    rewrite split_at_first by apply toString_hex_no_colon.
    now rewrite split_without by apply toString_hex_no_colon. }
  split.
  { rewrite toString_hex_length. unfold next_iv.
    now rewrite length_map, length_seq. }
  split; [apply Buffer_from_hex_toString | reflexivity].
Qed.

(** ** util/config/FoxyConfig.ts: updating *)

Lemma loaded_config_absorbs (this : FoxyConfigManager) (w : world)
    (current : json) :
  fst (loadConfig this w) = Ok current →
  own_props current ∪ own_props (FoxyConfig_object DEFAULT_CONFIG)
  = own_props current.
Proof.
  intros Hcur. destruct (loadConfig_shape this w) as [u Hu].
  rewrite Hu in Hcur. injection Hcur as <-.
  pose proof (merge_over_defaults_absorbs u) as Habs.
  apply (f_equal own_props) in Habs. exact Habs.
Qed.

(** X29. [updateConfig] merges the update over the current config at the
    top level only.  So after an update that carries a [git] group, the
    next [loadConfig] has, as its [git] group, the group of the update
    over the default group, whatever [git] flags the config had before;
    every other key has the value of the update or else the one the config
    had ([JSON.parse] undoing [JSON.stringify] at the config written). *)
Theorem updateConfig_git_falls_back (this : FoxyConfigManager) (w : world)
    (current : json) (updates userGit : gmap jsstring json) :
  fst (loadConfig this w) = Ok current →
  updates !! lit "git" = Some (JObj userGit) →
  JSON_parse (JSON_stringify (JObj (spread2 current (JObj updates))))
  = Ok (JObj (spread2 current (JObj updates))) →
  fs w !! foxycfg this ≠ Some Directory →
  fst (updateConfig this (JObj updates) w) = Ok tt
  ∧ ∃ merged,
      fst (loadConfig this (snd (updateConfig this (JObj updates) w)))
      = Ok (JObj merged)
      ∧ merged !! lit "git"
        = Some (JObj (userGit
                      ∪ own_props (GitConfig_object (git DEFAULT_CONFIG))))
      ∧ ∀ key, key ≠ lit "git" →
               merged !! key = (updates ∪ own_props current) !! key.
Proof.
  intros Hcur Hgit Hjson Hdir.
  pose proof (loaded_config_absorbs this w current Hcur) as Habs.
  pose proof (loadConfig_keeps_disk this w) as Hkeep.
  unfold updateConfig, bind.
  destruct (loadConfig this w) as [[c|e] w1]; cbn [fst snd] in *;
    [|discriminate Hcur].
  injection Hcur as ->.
  unfold saveConfig, try_catch, writeFileSync. rewrite Hkeep.
  set (written := JObj (spread2 current (JObj updates))) in *.
  assert (Hrun : match fs w !! foxycfg this with
                 | Some Directory => (Throw EISDIR, w1)
                 | _ => (Ok (),
                         with_fs w1 (<[foxycfg this :=
                                         File (JSON_stringify written)]> (fs w)))
                 end
                 = (Ok tt,
                    with_fs w1 (<[foxycfg this :=
                                    File (JSON_stringify written)]> (fs w)))).
  { destruct (fs w !! foxycfg this) as [[x|]|]; congruence. }
  rewrite Hrun. cbn [fst snd]. split; [reflexivity|].
  set (w2 := with_fs w1 _).
  assert (Hf : fs w2 !! foxycfg this = Some (File (JSON_stringify written)))
    by apply lookup_insert_eq.
  pose proof (loadConfig_present this w2 _ Hf) as H.
  unfold read_file in H. rewrite Hf in H. cbn [bind_result] in H.
  rewrite Hjson in H. rewrite H.
  unfold written, merge_over_defaults, spread2. cbn [own_props].
  rewrite (lookup_union_Some_l _ _ _ _ Hgit). cbn [truthy own_props].
  eexists. split; [reflexivity|]. split; [apply lookup_insert_eq|].
  intros key Hkey. rewrite lookup_insert_ne by congruence.
  now rewrite <- (assoc_L (∪)), Habs.
Qed.

End Foxy.

(* ===================================================================== *)
(** * The statements on the small concrete machine *)
(* ===================================================================== *)

Lemma save_then_load_roundtrip_witness :
  hasApiKey sample_manager fresh_world = false
  ∧ fst (loadApiKey sample_decrypt sample_manager
           (snd (saveApiKey sample_encrypt sample_random sample_manager
                   (lit "AIzaTESTKEY") fresh_world)))
    = Ok (lit "AIzaTESTKEY").
Proof.
  destruct (save_then_load_roundtrip sample_encrypt sample_decrypt
              sample_random sample_manager (lit "AIzaTESTKEY") fresh_world
              (map (fun c => default Byte.x00 (Byte.of_N c))
                   (lit "AIzaTESTKEY")))
    as (_ & Habsent & _ & _ & _ & Hload).
  - vm_compute; reflexivity.
  - vm_compute; discriminate.
  - vm_compute; reflexivity.
  - vm_compute; reflexivity.
  - split; assumption.
Defined.

Lemma invalid_value_persists_then_heals_witness :
  fst (loadCache sample_parse sample_stringify sample_resolve sample_cache (lit "settings")
         (Some (obj [("instrutor"%string, JStr (lit "normal"))]))
         (snd (saveCache sample_stringify sample_resolve sample_cache (lit "settings")
                 (obj [("instrutor"%string, JStr (lit "invalid"))])
                 fresh_world)))
  = Ok (obj [("instrutor"%string, JStr (lit "normal"))]).
Proof.
  destruct (invalid_value_persists_then_heals sample_parse sample_stringify
              sample_resolve
              sample_cache (lit "settings") SettingsSchema
              (obj [("instrutor"%string, JStr (lit "invalid"))])
              (obj [("instrutor"%string, JStr (lit "normal"))])
              fresh_world)
    as (w1 & Hsave & _ & _ & _ & Hload & _).
  - vm_compute; reflexivity.
  - vm_compute; reflexivity.
  - vm_compute; reflexivity.
  - vm_compute; discriminate.
  - rewrite Hsave. exact Hload.
Defined.


Lemma loadCache_unregistered_witness :
  loadCache sample_parse sample_stringify sample_resolve sample_cache
    (lit "history") (Some JNull) ready_world
  = (Throw (Error (lit "Schema not found for key: history")), ready_world).
Proof.
  destruct (loadCache_unregistered sample_parse sample_stringify
              sample_resolve sample_cache (lit "history") (Some JNull)
              ready_world)
    as (e & Hrun & Hplain & _).
  - vm_compute; reflexivity.
  - rewrite Hrun, Hplain; [reflexivity|]. vm_compute; reflexivity.
Defined.

(** The same load for a key that only [Object.prototype] answers. *)
Example loadCache_of_a_prototype_member :
  loadCache sample_parse sample_stringify sample_resolve sample_cache
    (lit "constructor") (Some JNull) ready_world
  = (Throw (Error (lit "schema.safeParse is not a function")), ready_world).
Proof. vm_compute; reflexivity. Qed.

Lemma generateCommitMessage_falls_back_witness :
  generateCommitMessage sample_encrypt sample_decrypt sample_random
    sample_operator sample_parse sample_stringify sample_resolve sample_generate_fail
    sample_PromptToGenerate sample_client DEFAULT_CONFIG three_changes
    ready_world
  = (Ok (lit "✨ fix: atualiza 3 arquivo(s)"), ready_world).
Proof.
  apply (generateCommitMessage_falls_back sample_encrypt sample_decrypt
           sample_random sample_operator sample_parse sample_stringify
           sample_resolve
           sample_generate_fail sample_PromptToGenerate sample_client
           DEFAULT_CONFIG three_changes ready_world ready_world
           (Error (lit "Failed to generate text: fetch failed"))).
  right. vm_compute; reflexivity.
Defined.

Lemma responder_does_not_heal_witness :
  ∃ e,
    fst (responder sample_encrypt sample_decrypt sample_random sample_operator
           sample_parse sample_stringify sample_resolve sample_generate_ok
           sample_PromptToGenerate sample_client (lit "oi")
           broken_settings_world)
    = Throw e
    ∧ fs (snd (responder sample_encrypt sample_decrypt sample_random
                 sample_operator sample_parse sample_stringify
                 sample_resolve
                 sample_generate_ok sample_PromptToGenerate sample_client
                 (lit "oi") broken_settings_world))
        !! settings_path
      = Some (File (lit "invalid")).
Proof.
  destruct (responder_does_not_heal sample_encrypt sample_decrypt
              sample_random sample_operator sample_parse sample_stringify
              sample_resolve
              sample_generate_ok sample_PromptToGenerate sample_client
              (lit "oi") broken_settings_world (lit "invalid"))
    as (_ & e & w' & Hresp & Hfs & _).
  - vm_compute; reflexivity.
  - vm_compute; discriminate.
  - vm_compute; reflexivity.
  - intros value H. vm_compute in H. injection H as <-. vm_compute; reflexivity.
  - exists e. rewrite Hresp. split; [reflexivity | exact Hfs].
Defined.

Lemma generateCommitMessage_cleaned_witness :
  fst (generateCommitMessage sample_encrypt sample_decrypt sample_random
         sample_operator sample_parse sample_stringify sample_resolve sample_generate_ok
         sample_PromptToGenerate sample_client (config_with_max 10)
         three_changes ready_world)
  = Ok (lit "feat: add ").
Proof.
  destruct (generateCommitMessage_cleaned sample_encrypt sample_decrypt
              sample_random sample_operator sample_parse sample_stringify
              sample_resolve
              sample_generate_ok sample_PromptToGenerate sample_client
              (config_with_max 10) three_changes ready_world ready_world
              (lit "  'feat': add parser" ++ [LF] ++ lit "for status lines "))
    as ((m & Hrun & -> & _) & _).
  - vm_compute; reflexivity.
  - rewrite Hrun. vm_compute; reflexivity.
Defined.

(** C10, as stated, fails: with [maxMessageLength = -1] and a remote call
    that succeeds, the message returned is empty, and its length 0 is not
    at most -1. *)
Lemma generateCommitMessage_negative_bound :
  ∃ m : jsstring,
    responder sample_encrypt sample_decrypt sample_random sample_operator
      sample_parse sample_stringify sample_resolve sample_generate_ok sample_PromptToGenerate
      sample_client (commit_prompt (config_with_max (-1)) three_changes)
      ready_world
    = (Ok (Ok (lit "  'feat': add parser" ++ [LF] ++ lit "for status lines ")),
       ready_world)
    ∧ fst (generateCommitMessage sample_encrypt sample_decrypt sample_random
             sample_operator sample_parse sample_stringify sample_resolve sample_generate_ok
             sample_PromptToGenerate sample_client (config_with_max (-1))
             three_changes ready_world)
      = Ok m
    ∧ ¬ (jslength m <= maxMessageLength (config_with_max (-1)))%Z.
Proof.
  exists []. split; [vm_compute; reflexivity|].
  split; [vm_compute; reflexivity|].
  vm_compute. intros H. apply H. reflexivity.
Qed.

(** ** The further properties on the small concrete machine *)

Lemma promptForApiKey_returns_confirmed_key_witness :
  fst (promptForApiKey sample_operator fresh_world) = Ok (lit "AIzaTESTKEY")
  ∧ startsWith (lit "AIzaTESTKEY") (lit "AIza") = true.
Proof.
  split; [vm_compute; reflexivity|].
  destruct (promptForApiKey_returns_confirmed_key sample_operator fresh_world
              (snd (promptForApiKey sample_operator fresh_world))
              (lit "AIzaTESTKEY"))
    as (_ & _ & _ & [H|[H|H]]).
  - vm_compute; reflexivity.
  - exact H.
  - vm_compute in H. discriminate H.
  - vm_compute in H. discriminate H.
Defined.

Lemma promptForApiKey_blank_witness :
  ∃ w', promptForApiKey blank_operator fresh_world
        = (Throw (Error (lit "API key não pode estar vazia")), w')
    ∧ fs w' = fs fresh_world
    ∧ answered w' = 1%nat.
Proof.
  apply (promptForApiKey_blank blank_operator fresh_world).
  vm_compute; reflexivity.
Defined.

Lemma promptForApiKey_declined_witness :
  ∃ w', promptForApiKey declining_operator fresh_world
        = (Throw (Error (lit "Configuração cancelada pelo usuário")), w')
    ∧ fs w' = fs fresh_world.
Proof.
  apply (promptForApiKey_declined declining_operator fresh_world).
  - vm_compute; discriminate.
  - vm_compute; reflexivity.
  - vm_compute; discriminate.
  - vm_compute; discriminate.
Defined.

Lemma setupApiKey_then_load_witness :
  ∃ w2, setupApiKey sample_encrypt sample_random sample_operator
          sample_manager fresh_world
        = (Ok (lit "AIzaTESTKEY"), w2)
    ∧ hasApiKey sample_manager w2 = true
    ∧ fst (loadApiKey sample_decrypt sample_manager w2)
      = Ok (lit "AIzaTESTKEY").
Proof.
  apply (setupApiKey_then_load sample_encrypt sample_decrypt sample_random
           sample_operator sample_manager fresh_world
           (snd (promptForApiKey sample_operator fresh_world))
           (lit "AIzaTESTKEY")
           (map (fun c => default Byte.x00 (Byte.of_N c))
                (lit "AIzaTESTKEY"))).
  - vm_compute; reflexivity.
  - vm_compute; reflexivity.
  - vm_compute; discriminate.
  - vm_compute; reflexivity.
  - vm_compute; discriminate.
Defined.


Lemma loadCache_seeds_default_witness :
  ∃ w1, loadCache sample_parse sample_stringify sample_resolve sample_cache (lit "settings")
          (Some normal_settings) fresh_world
        = (Ok normal_settings, w1)
    ∧ cacheExists sample_resolve sample_cache (lit "settings") w1 = true
    ∧ fs w1 !! cache_file sample_resolve sample_cache (lit "settings")
      = Some (File (sample_stringify normal_settings)).
Proof.
  apply (loadCache_seeds_default sample_parse sample_stringify sample_resolve sample_cache
           (lit "settings") SettingsSchema (Some normal_settings)
           normal_settings fresh_world).
  - vm_compute; reflexivity.
  - vm_compute; reflexivity.
  - reflexivity.
Defined.

Lemma loadCache_valid_is_readonly_witness :
  fst (loadCache sample_parse sample_stringify sample_resolve sample_cache (lit "settings")
         (Some JNull) ready_world)
  = Ok normal_settings
  ∧ snd (loadCache sample_parse sample_stringify sample_resolve sample_cache (lit "settings")
           (Some JNull) ready_world)
    = ready_world.
Proof.
  apply (loadCache_valid_is_readonly sample_parse sample_stringify
           sample_resolve
           sample_cache (lit "settings") SettingsSchema (Some JNull)
           (lit "normal") normal_settings normal_settings ready_world).
  - vm_compute; reflexivity.
  - vm_compute; reflexivity.
  - vm_compute; reflexivity.
  - vm_compute; reflexivity.
Defined.

Lemma createCache_then_load_witness :
  ∃ w1, createCache sample_stringify sample_resolve sample_cache (lit "settings")
          (Some normal_settings) fresh_world
        = (Ok normal_settings, w1)
    ∧ console w1 = console fresh_world
    ∧ loadCache sample_parse sample_stringify sample_resolve sample_cache (lit "settings")
        None w1
      = (Ok normal_settings, w1).
Proof.
  apply (createCache_then_load sample_parse sample_stringify sample_resolve sample_cache
           (lit "settings") SettingsSchema normal_settings normal_settings
           fresh_world).
  - vm_compute; reflexivity.
  - vm_compute; reflexivity.
  - vm_compute; reflexivity.
  - vm_compute; discriminate.
Defined.

Lemma loadCache_returns_default_or_valid_witness :
  effective_default SettingsSchema (Some JNull) = Some normal_settings
  ∨ ∃ text raw,
      fs ready_world !! cache_file sample_resolve sample_cache (lit "settings")
      = Some (File text)
      ∧ sample_parse text = Ok raw
      ∧ safeParse SettingsSchema raw = Some normal_settings.
Proof.
  apply (loadCache_returns_default_or_valid sample_parse sample_stringify
           sample_resolve
           sample_cache (lit "settings") SettingsSchema (Some JNull)
           ready_world ready_world normal_settings).
  - vm_compute; reflexivity.
  - vm_compute; reflexivity.
Defined.

Lemma loadCache_heals_unparsable_witness :
  ∃ w1, loadCache sample_parse sample_stringify sample_resolve sample_cache (lit "settings")
          (Some normal_settings) unparsable_settings_world
        = (Ok normal_settings, w1)
    ∧ fs w1
      = <[cache_file sample_resolve sample_cache (lit "settings")
            := File (sample_stringify normal_settings)]>
          (fs unparsable_settings_world).
Proof.
  apply (loadCache_heals_unparsable sample_parse sample_stringify sample_resolve sample_cache
           (lit "settings") SettingsSchema (Some normal_settings)
           normal_settings (lit "{")
           (Error (lit "Unexpected end of JSON input"))
           unparsable_settings_world).
  - vm_compute; reflexivity.
  - vm_compute; reflexivity.
  - vm_compute; reflexivity.
  - reflexivity.
Defined.

Lemma loadCache_unwritable_fails_witness :
  ∃ w1, loadCache sample_parse sample_stringify sample_resolve sample_cache (lit "settings")
          (Some normal_settings) unwritable_settings_world
        = (Throw (Error (lit "Failed to save cache '" ++ lit "settings"
                         ++ lit "': " ++ message EISDIR)), w1)
    ∧ fs w1 = fs unwritable_settings_world.
Proof.
  apply (loadCache_unwritable_fails sample_parse sample_stringify sample_resolve sample_cache
           (lit "settings") SettingsSchema (Some normal_settings)
           normal_settings unwritable_settings_world).
  - vm_compute; reflexivity.
  - vm_compute; reflexivity.
  - reflexivity.
Defined.

Lemma saveConfig_then_load_witness :
  fst (loadConfig config_parse sample_config_manager user_config_world)
  = Ok user_config_loaded
  ∧ fst (loadConfig config_parse sample_config_manager
           (snd (saveConfig config_stringify sample_config_manager
                   user_config_loaded user_config_world)))
    = Ok user_config_loaded.
Proof.
  split; [vm_compute; reflexivity|].
  apply (saveConfig_then_load config_parse config_stringify
           sample_config_manager sample_config_manager user_config_world
           user_config_world user_config_loaded).
  - vm_compute; reflexivity.
  - vm_compute; reflexivity.
  - vm_compute; discriminate.
Defined.

Lemma ensureInitialized_idempotent_witness :
  let w1 := snd (ensureInitialized sample_encrypt sample_decrypt sample_random
                   sample_operator sample_client fresh_world) in
  isInitialized w1 = true
  ∧ is_Some (GGProfile w1)
  ∧ ensureInitialized sample_encrypt sample_decrypt sample_random
      sample_operator sample_client w1
    = (Ok tt, w1).
Proof.
  intros w1.
  apply (ensureInitialized_idempotent sample_encrypt sample_decrypt
           sample_random sample_operator sample_client fresh_world w1).
  vm_compute; reflexivity.
Defined.

Lemma ensureInitialized_uses_saved_key_witness :
  let saved := snd (saveApiKey sample_encrypt sample_random sample_manager
                      (lit "AIzaTESTKEY") fresh_world) in
  ensureInitialized sample_encrypt sample_decrypt sample_random
    sample_operator sample_client saved
  = (Ok tt,
     with_client saved
       (Some {| GOOGLE_API_KEY := lit "AIzaTESTKEY";
                modelName := lit "gemini-2.0-flash" |})
       true).
Proof.
  intros saved.
  apply (ensureInitialized_uses_saved_key sample_encrypt sample_decrypt
           sample_random sample_operator sample_client saved
           (secret_record (next_iv sample_random fresh_world)
              (map (fun c => default Byte.x00 (Byte.of_N c))
                   (lit "AIzaTESTKEY")))
           (lit "AIzaTESTKEY")).
  - vm_compute; reflexivity.
  - vm_compute; reflexivity.
  - vm_compute; reflexivity.
Defined.

Lemma responder_reads_mode_witness :
  fst (responder sample_encrypt sample_decrypt sample_random sample_operator
         sample_parse sample_stringify sample_resolve sample_generate_ok
         sample_PromptToGenerate sample_client (lit "oi") ready_world)
  = Ok (sample_generate_ok
          {| GOOGLE_API_KEY := lit "AIzaTESTKEY";
             modelName := lit "gemini-2.0-flash" |}
          (lit "oi")).
Proof.
  rewrite (responder_reads_mode sample_encrypt sample_decrypt sample_random
             sample_operator sample_parse sample_stringify sample_resolve sample_generate_ok
             sample_PromptToGenerate sample_client (lit "oi") ready_world
             {| GOOGLE_API_KEY := lit "AIzaTESTKEY";
                modelName := lit "gemini-2.0-flash" |}
             (lit "normal") {[ lit "instrutor" := JStr (lit "normal") ]}
             (lit "normal")).
  - reflexivity.
  - vm_compute; reflexivity.
  - reflexivity.
  - reflexivity.
  - vm_compute; reflexivity.
  - vm_compute; reflexivity.
  - vm_compute; reflexivity.
  - now right.
Defined.

Lemma responder_first_run_seeds_settings_witness :
  fs (snd (responder sample_encrypt sample_decrypt sample_random
             sample_operator sample_parse sample_stringify sample_resolve sample_generate_ok
             sample_PromptToGenerate sample_client (lit "oi")
             first_run_world))
    !! settings_file sample_resolve sample_client
  = Some (File (sample_stringify normal_settings)).
Proof.
  rewrite (responder_first_run_seeds_settings sample_encrypt sample_decrypt
             sample_random sample_operator sample_parse sample_stringify
             sample_resolve
             sample_generate_ok sample_PromptToGenerate sample_client
             (lit "oi") first_run_world
             {| GOOGLE_API_KEY := lit "AIzaTESTKEY";
                modelName := lit "gemini-2.0-flash" |}).
  - vm_compute; reflexivity.
  - vm_compute; reflexivity.
  - reflexivity.
  - reflexivity.
  - vm_compute; reflexivity.
  - vm_compute; reflexivity.
Defined.

Lemma parseGitStatus_after_trim_witness :
  parseGitStatus (trim (lit " M " ++ lit "old.ts" ++ [LF]))
  = {| added := []; modified := [lit "ld.ts"]; deleted := [] |}.
Proof.
  destruct (parseGitStatus_after_trim (lit "old.ts") 115%N)
    as (_ & H & _).
  - apply (bool_decide_eq_true_1 (LF ∉ lit "old.ts")). vm_compute; reflexivity.
  - vm_compute; reflexivity.
  - reflexivity.
  - exact H.
Defined.

Lemma handleFileCreation_keeps_existing_witness :
  ∃ w', handleFileCreation sample_operator sample_dirname sample_file
          existing_file_world
        = (Ok tt, w')
    ∧ fs w' = fs existing_file_world
    ∧ answered w' = 1%nat.
Proof.
  apply (handleFileCreation_keeps_existing sample_operator sample_dirname
           sample_file existing_file_world (File (lit "old"))).
  - vm_compute; reflexivity.
  - vm_compute; discriminate.
  - vm_compute; discriminate.
Defined.

Lemma handleFileCreation_writes_witness :
  ∃ w', handleFileCreation agreeing_operator sample_dirname sample_file
          existing_file_world
        = (Ok tt, w')
    ∧ fs w' !! filePath sample_file = Some (File (content sample_file))
    ∧ (fs existing_file_world !! filePath sample_file = None →
       answered w' = answered existing_file_world).
Proof.
  apply (handleFileCreation_writes agreeing_operator sample_dirname
           sample_file existing_file_world).
  - right. split; [exists (lit "old"); vm_compute; reflexivity|].
    right. vm_compute; reflexivity.
  - vm_compute; discriminate.
  - intros text. vm_compute; discriminate.
Defined.

Lemma cleanMessage_keeps_clean_witness :
  cleanMessage DEFAULT_CONFIG (lit "fix: typo") = lit "fix: typo".
Proof.
  apply (cleanMessage_keeps_clean DEFAULT_CONFIG (lit "fix: typo")).
  - vm_compute; reflexivity.
  - intros c Hc. vm_compute in Hc.
    repeat (apply elem_of_cons in Hc as [->|Hc];
            [repeat split; discriminate|]).
    now apply elem_of_nil in Hc.
  - vm_compute. discriminate.
Defined.

Lemma encrypt_record_format_witness :
  ∃ record w',
    encrypt sample_encrypt sample_random sample_manager (lit "AIzaTESTKEY")
      fresh_world
    = (Ok record, w')
    ∧ split COLON record
      = [toString_hex (next_iv sample_random fresh_world);
         toString_hex (map (fun c => default Byte.x00 (Byte.of_N c))
                           (lit "AIzaTESTKEY"))]
    ∧ length (toString_hex (next_iv sample_random fresh_world)) = 32%nat
    ∧ Buffer_from_hex (toString_hex (next_iv sample_random fresh_world))
      = next_iv sample_random fresh_world
    ∧ drawn w' = (drawn fresh_world + 16)%nat.
Proof.
  apply (encrypt_record_format sample_encrypt sample_random sample_manager
           (lit "AIzaTESTKEY") fresh_world).
  vm_compute; reflexivity.
Defined.

Lemma updateConfig_git_falls_back_witness :
  fst (loadConfig config_parse sample_config_manager user_config_world)
  = Ok user_config_loaded
  ∧ fst (updateConfig config_parse config_stringify sample_config_manager
           (JObj git_update) user_config_world)
    = Ok tt
  ∧ ∃ merged,
      fst (loadConfig config_parse sample_config_manager
             (snd (updateConfig config_parse config_stringify
                     sample_config_manager (JObj git_update)
                     user_config_world)))
      = Ok (JObj merged)
      ∧ merged !! lit "git"
        = Some (obj [("autoAdd"%string, JBool true);
                     ("confirmBeforeCommit"%string, JBool false);
                     ("includeStats"%string, JBool true);
                     ("autoCommit"%string, JBool true)])
      ∧ merged !! lit "language" = Some (JStr (lit "en")).
Proof.
  split; [vm_compute; reflexivity|].
  destruct (updateConfig_git_falls_back config_parse config_stringify
              sample_config_manager user_config_world user_config_loaded
              git_update
              (own_props (obj [("autoCommit"%string, JBool true)])))
    as (Hrun & merged & Hload & Hgit & Hother).
  - vm_compute; reflexivity.
  - vm_compute; reflexivity.
  - vm_compute; reflexivity.
  - vm_compute; discriminate.
  - split; [exact Hrun|]. exists merged. split; [exact Hload|]. split.
    + rewrite Hgit. vm_compute; reflexivity.
    + rewrite Hother; [vm_compute; reflexivity|].
      vm_compute; discriminate.
Defined.

(** Two spellings of one key name one file: clearing the one clears the
    cache of the other. *)
Example clearCache_of_another_spelling :
  cache_file sample_resolve sample_cache (lit "./settings")
  = cache_file sample_resolve sample_cache (lit "settings")
  ∧ cacheExists sample_resolve sample_cache (lit "settings") ready_world
    = true
  ∧ cacheExists sample_resolve sample_cache (lit "settings")
      (snd (clearCache sample_resolve sample_cache (lit "./settings")
              ready_world))
    = false.
Proof. repeat split; vm_compute; reflexivity. Qed.

(** A secret on the disk outlives [deleteApiKey] and [resetApiKey]. *)
Example secret_outlives_reset :
  let no_require := Error (lit "require is not defined") in
  hasApiKey sample_manager
    (snd (deleteApiKey no_require sample_manager malformed_world))
  = true
  ∧ isConfigured sample_client
      (snd (resetApiKey no_require sample_client malformed_world))
    = true.
Proof. split; vm_compute; reflexivity. Qed.
